(** * PUF PFP generator: the image-edit request/response lifecycle

    A shallow embedding of [services/geminiService.ts] (the module that
    exports [editImageWithPrompt]) and of the parts of [App.tsx] that call
    it ([fileToDataUri], [handleFileChange], [handleGenerate]).

    JavaScript values are modelled by the types the TypeScript code is
    written against: an optional property [p?: T] is an [option T], where
    [None] is the run-time value [undefined]; the optional chain [a?.b] is
    the bind of [option]; [x ?? d] is [default d x].  An [async] function is
    a small resumption ([Proc]) that suspends at its [await]. *)

From Stdlib Require Import ZArith NArith Lia Ascii Strings.Byte.
From stdpp Require Import base option list strings gmap.

(** ** Values that can be thrown *)

(** What a [catch (error)] clause can receive.  The two handlers of the
    program look at nothing but [error instanceof Error] and, when that
    holds, [error.message]. *)
Inductive Thrown : Type :=
  | ErrorInstance (message : string)   (* [new Error(message)] or a subclass *)
  | OtherThrown (shown : string).      (* any value that is not an [Error] *)

(** [error instanceof Error ? error.message : "An unknown error occurred."]
    (geminiService.ts line 46, App.tsx line 108). *)
Definition errorMessage (error : Thrown) : string :=
  match error with
  | ErrorInstance message => message
  | OtherThrown _ => "An unknown error occurred."
  end.

(** ** The SDK's request and response types *)

Module GenAI.

Inductive Modality : Type := MODALITY_UNSPECIFIED | TEXT | IMAGE | AUDIO.

(** [Blob]: [{ data?: string; mimeType?: string }]. *)
Record Blob : Type := { data : option string; mimeType : option string }.

(** [Part]: of its optional fields the program writes and reads
    [inlineData] and [text]. *)
Record Part : Type := { inlineData : option Blob; text : option string }.

(** [Content]: [{ parts?: Part[] }]. *)
Record Content : Type := { parts : option (list Part) }.

(** [Candidate]: [{ content?: Content }]. *)
Record Candidate : Type := { content : option Content }.

(** [GenerateContentResponse]: [{ candidates?: Candidate[] }]. *)
Record GenerateContentResponse : Type :=
  { candidates : option (list Candidate) }.

Record GenerateContentConfig : Type :=
  { responseModalities : list Modality }.

(** The argument of [ai.models.generateContent]. *)
Record GenerateContentParameters : Type :=
  { model : string; contents : Content; config : GenerateContentConfig }.

(** The client object: [new GoogleGenAI({ apiKey })]. *)
Record GoogleGenAI : Type := { apiKey : string }.

(** How the promise returned by [generateContent] settles. *)
Inductive Outcome : Type :=
  | Fulfilled (response : GenerateContentResponse)
  | RejectedWith (error : Thrown).

End GenAI.
Import GenAI.

(** ** Asynchronous procedures *)

(** How a promise of an [R] settles. *)
Inductive Settled (R : Type) : Type :=
  | Resolved (value : R)
  | Rejected (error : Thrown).
Arguments Resolved {R} value.
Arguments Rejected {R} error.

(** The body of an [async] function returning [Promise<R>]: it returns,
    throws, awaits [client.models.generateContent(req)] and goes on with
    the way that promise settled, or writes to the console and goes on. *)
Inductive Proc (R : Type) : Type :=
  | Return (value : R)
  | Throw (error : Thrown)
  | AwaitGenerateContent (client : GoogleGenAI)
                         (req : GenerateContentParameters)
                         (k : Outcome → Proc R)
  | ConsoleError (label : string) (error : Thrown) (k : Proc R).
Arguments Return {R} value.
Arguments Throw {R} error.
Arguments AwaitGenerateContent {R} client req k.
Arguments ConsoleError {R} label error k.

(** [try { body } catch (error) { handler error }]: whatever [body] throws,
    now or after an [await], goes to [handler]; what [handler] throws is not
    caught again. *)
Fixpoint try_catch {R} (body : Proc R) (handler : Thrown → Proc R) : Proc R :=
  match body with
  | Return value => Return value
  | Throw error => handler error
  | AwaitGenerateContent client req k =>
      AwaitGenerateContent client req (λ o, try_catch (k o) handler)
  | ConsoleError label error k =>
      ConsoleError label error (try_catch k handler)
  end.

(** [await promise]: the value it resolves with, or a throw of the value it
    rejects with. *)
Definition await {R} (client : GoogleGenAI) (req : GenerateContentParameters)
    (k : GenerateContentResponse → Proc R) : Proc R :=
  AwaitGenerateContent client req (λ o,
    match o with
    | Fulfilled response => k response
    | RejectedWith error => Throw error
    end).

(** ** geminiService.ts *)

(** Lines 3-7, run once when the module is loaded.  [process.env] is a map
    from names to strings; [!process.env.API_KEY] holds when the key is
    missing and when it is the empty string.  Loading either throws or
    binds the module constant [ai]. *)
Definition load_geminiService (env : gmap string string) : Thrown + GoogleGenAI :=
  match env !! "API_KEY" with
  | None => inl (ErrorInstance "API_KEY environment variable not set")
  | Some key =>
      if decide (key = "")
      then inl (ErrorInstance "API_KEY environment variable not set")
      else inr {| apiKey := key |}
  end.

(** The loop of lines 36-40 over an array of parts: the first part whose
    [inlineData] is truthy (an object always is) ends the function with
    [part.inlineData.data], which is [undefined] when the blob has no
    [data]; [None] when the loop runs off the end of the array. *)
Fixpoint scan_parts (ps : list Part) : option (option string) :=
  match ps with
  | [] => None
  | part :: rest =>
      match inlineData part with
      | Some blob => Some (data blob)
      | None => scan_parts rest
      end
  end.

(** [response.candidates?.[0]?.content?.parts ?? []]. *)
Definition response_parts (response : GenerateContentResponse) : list Part :=
  default []
    (cs ← candidates response;
     first ← (cs : list Candidate) !! 0%nat;
     c ← content first;
     parts c).

(** [editImageWithPrompt], lines 9-49, closed over the module constant
    [ai].  It resolves with a value typed [string] that is
    [part.inlineData.data] at run time, hence an [option string]. *)
Definition editImageWithPrompt (ai : GoogleGenAI)
    (base64ImageData : string) (mimeType : string) (prompt : string)
    : Proc (option string) :=
  try_catch
    (let parts :=
       [ {| inlineData := Some {| data := Some base64ImageData;
                                  GenAI.mimeType := Some mimeType |};
            text := None |};
         {| inlineData := None; text := Some prompt |} ] in
     await ai
       {| model := "gemini-2.5-flash-image";
          contents := {| GenAI.parts := Some parts |};
          config := {| responseModalities := [IMAGE] |} |}
       (λ response,
          match scan_parts (response_parts response) with
          | Some payload => Return payload
          | None => Throw (ErrorInstance "No image data found in the API response.")
          end))
    (λ error,
       ConsoleError "Error editing image with Gemini:" error
         (let errorMessage := errorMessage error in
          Throw (ErrorInstance ("Failed to generate image: " +:+ errorMessage)))).

(** ** Running a procedure *)

(** The remote service, as seen from the program: how the promise of each
    call settles. *)
Definition Remote : Type := GoogleGenAI → GenerateContentParameters → Outcome.

(** What one run leaves behind: how the promise settled, the calls that were
    sent (oldest first) and the lines written to the console. *)
Record Run (R : Type) : Type :=
  { settled : Settled R;
    sent : list (GoogleGenAI * GenerateContentParameters);
    console : list (string * Thrown) }.
Arguments settled {R} _.
Arguments sent {R} _.
Arguments console {R} _.

Fixpoint run {R} (remote : Remote) (p : Proc R) : Run R :=
  match p with
  | Return value => {| settled := Resolved value; sent := []; console := [] |}
  | Throw error => {| settled := Rejected error; sent := []; console := [] |}
  | AwaitGenerateContent client req k =>
      let r := run remote (k (remote client req)) in
      {| settled := settled r;
         sent := (client, req) :: sent r;
         console := console r |}
  | ConsoleError label error k =>
      let r := run remote k in
      {| settled := settled r;
         sent := sent r;
         console := (label, error) :: console r |}
  end.

(** The remote service that settles every call the same way. *)
Definition answering (o : Outcome) : Remote := λ _ _, o.

(** ** Overlapping invocations *)

(** What the invocations in flight on one page share: the binding [ai] of
    the service module (line 7) and the console.  The parameters and the
    [const]s of a body ([parts], [response], [error], [errorMessage]) are
    made anew for each invocation and are not in here. *)
Record World : Type :=
  { module_ai : GoogleGenAI;
    console_lines : list (string * Thrown) }.

(** The body of an [async] function with its accesses to the world written
    out: it is done, or reads the world, or updates it, or is suspended at
    [await client.models.generateContent(req)].  Such a body may read what
    another invocation wrote. *)
Inductive Task (R : Type) : Type :=
  | Done (result : Settled R)
  | ReadWorld (k : World → Task R)
  | WriteWorld (update : World → World) (k : Task R)
  | Suspend (client : GoogleGenAI) (req : GenerateContentParameters)
            (k : Outcome → Task R).
Arguments Done {R} result.
Arguments ReadWorld {R} k.
Arguments WriteWorld {R} update k.
Arguments Suspend {R} client req k.

Module Page.

(** [try { body } catch (error) { handler error }] for a [Task]. *)
Fixpoint try_catch {R} (body : Task R) (handler : Thrown → Task R) : Task R :=
  match body with
  | Done (Resolved value) => Done (Resolved value)
  | Done (Rejected error) => handler error
  | ReadWorld k => ReadWorld (λ w, try_catch (k w) handler)
  | WriteWorld update k => WriteWorld update (try_catch k handler)
  | Suspend client req k => Suspend client req (λ o, try_catch (k o) handler)
  end.

(** [console.error(label, error)]: one more line on the console. *)
Definition console_error (label : string) (error : Thrown) (w : World) : World :=
  {| module_ai := module_ai w;
     console_lines := console_lines w ++ [(label, error)] |}.

(** [editImageWithPrompt], lines 9-49, statement by statement.  Line 26
    reads the module's [ai]; line 45 writes to the console; everything else
    works on the parameters and on the body's own [const]s. *)
Definition editImageWithPrompt
    (base64ImageData : string) (mimeType : string) (prompt : string)
    : Task (option string) :=
  try_catch
    (let parts :=
       [ {| inlineData := Some {| data := Some base64ImageData;
                                  GenAI.mimeType := Some mimeType |};
            text := None |};
         {| inlineData := None; text := Some prompt |} ] in
     ReadWorld (λ w,
       let ai := module_ai w in
       Suspend ai
         {| model := "gemini-2.5-flash-image";
            contents := {| GenAI.parts := Some parts |};
            config := {| responseModalities := [IMAGE] |} |}
         (λ o,
            match o with
            | RejectedWith error => Done (Rejected error)
            | Fulfilled response =>
                match scan_parts (response_parts response) with
                | Some payload => Done (Resolved payload)
                | None =>
                    Done (Rejected
                      (ErrorInstance "No image data found in the API response."))
                end
            end)))
    (λ error,
       WriteWorld (console_error "Error editing image with Gemini:" error)
         (let errorMessage := errorMessage error in
          Done (Rejected
            (ErrorInstance ("Failed to generate image: " +:+ errorMessage))))).

End Page.

(** One turn of an invocation on the shared world.  JavaScript gives a body
    the turns from one [await] to the next without a break; giving them one
    at a time allows every order it has, and more. *)
Definition step {R} (remote : Remote) (t : Task R) (w : World) : Task R * World :=
  match t with
  | Done _ => (t, w)
  | ReadWorld k => (k w, w)
  | WriteWorld update k => (k, update w)
  | Suspend client req k => (k (remote client req), w)
  end.

(** How the promise of an invocation has settled, if it has. *)
Definition outcome_of {R} (t : Task R) : option (Settled R) :=
  match t with
  | Done result => Some result
  | ReadWorld _ | WriteWorld _ _ | Suspend _ _ _ => None
  end.

(** An invocation run alone from a world: how it settles and the world it
    leaves. *)
Fixpoint run_alone {R} (remote : Remote) (t : Task R) (w : World)
    : Settled R * World :=
  match t with
  | Done result => (result, w)
  | ReadWorld k => run_alone remote (k w) w
  | WriteWorld update k => run_alone remote k (update w)
  | Suspend client req k => run_alone remote (k (remote client req)) w
  end.

(** The number of turns an invocation still needs, run alone. *)
Fixpoint remaining {R} (remote : Remote) (t : Task R) (w : World) : nat :=
  match t with
  | Done _ => 0
  | ReadWorld k => S (remaining remote (k w) w)
  | WriteWorld update k => S (remaining remote k (update w))
  | Suspend client req k => S (remaining remote (k (remote client req)) w)
  end.

Inductive Turn : Type := First | Second.

#[global] Instance Turn_eq_dec : EqDecision Turn.
Proof. solve_decision. Defined.

(** Two invocations in flight and the world they share. *)
Record Overlap (R : Type) : Type :=
  { first : Task R; second : Task R; world : World }.
Arguments first {R} _.
Arguments second {R} _.
Arguments world {R} _.

(** Runs the two invocations in the order the schedule gives, on the one
    world; the calls of the first are answered by [remote1], those of the
    second by [remote2]. *)
Fixpoint interleave {R} (remote1 remote2 : Remote) (schedule : list Turn)
    (s : Overlap R) : Overlap R :=
  match schedule with
  | [] => s
  | First :: schedule' =>
      let '(t, w) := step remote1 (first s) (world s) in
      interleave remote1 remote2 schedule'
        {| first := t; second := second s; world := w |}
  | Second :: schedule' =>
      let '(t, w) := step remote2 (second s) (world s) in
      interleave remote1 remote2 schedule'
        {| first := first s; second := t; world := w |}
  end.

Definition turns_of (t : Turn) (schedule : list Turn) : nat :=
  length (filter (λ t', t' = t) schedule).

(** A body that takes nothing from the world but the module's [ai] and
    leaves that binding as it is. *)
Inductive confined {R} : Task R → Prop :=
  | confined_done result : confined (Done result)
  | confined_read k :
      (∀ w w', module_ai w = module_ai w' → k w = k w') →
      (∀ w, confined (k w)) →
      confined (ReadWorld k)
  | confined_write update k :
      (∀ w, module_ai (update w) = module_ai w) →
      confined k →
      confined (WriteWorld update k)
  | confined_suspend client req k :
      (∀ o, confined (k o)) →
      confined (Suspend client req k).

(** ** The platform's [FileReader] *)

(** [readAsDataURL] is the browser's: the file's content in base64 (RFC 4648,
    with padding) behind the header [data:<type>;base64,] (RFC 2397). *)
Module Base64.

Definition alphabet : string :=
  "ABCDEFGHIJKLMNOPQRSTUVWXYZabcdefghijklmnopqrstuvwxyz0123456789+/".

Definition pad : ascii := "="%char.

(** The character of a 6-bit value. *)
Definition encode_sextet (n : N) : ascii :=
  default pad (String.get (N.to_nat n) alphabet).

Fixpoint index_of (c : ascii) (s : string) : option N :=
  match s with
  | EmptyString => None
  | String d rest =>
      if Ascii.eqb c d then Some 0%N else N.succ <$> index_of c rest
  end.

(** The 6-bit value of a character of the alphabet. *)
Definition decode_char (c : ascii) : option N := index_of c alphabet.

(** The four 6-bit values of three bytes. *)
Definition sextet1 (b1 : N) : N := (b1 / 4)%N.
Definition sextet2 (b1 b2 : N) : N := ((b1 mod 4) * 16 + b2 / 16)%N.
Definition sextet3 (b2 b3 : N) : N := ((b2 mod 16) * 4 + b3 / 64)%N.
Definition sextet4 (b3 : N) : N := (b3 mod 64)%N.

Fixpoint encode (bs : list byte) : string :=
  match bs with
  | [] => ""
  | [b1] =>
      let n1 := Byte.to_N b1 in
      String (encode_sextet (sextet1 n1))
        (String (encode_sextet (sextet2 n1 0))
           (String pad (String pad "")))
  | [b1; b2] =>
      let n1 := Byte.to_N b1 in
      let n2 := Byte.to_N b2 in
      String (encode_sextet (sextet1 n1))
        (String (encode_sextet (sextet2 n1 n2))
           (String (encode_sextet (sextet3 n2 0)) (String pad "")))
  | b1 :: b2 :: b3 :: rest =>
      let n1 := Byte.to_N b1 in
      let n2 := Byte.to_N b2 in
      let n3 := Byte.to_N b3 in
      String (encode_sextet (sextet1 n1))
        (String (encode_sextet (sextet2 n1 n2))
           (String (encode_sextet (sextet3 n2 n3))
              (String (encode_sextet (sextet4 n3)) (encode rest))))
  end.

(** The bytes of two, three and four 6-bit values. *)
Definition octet1 (s1 s2 : N) : option byte := Byte.of_N (s1 * 4 + s2 / 16)%N.
Definition octet2 (s2 s3 : N) : option byte :=
  Byte.of_N ((s2 mod 16) * 16 + s3 / 4)%N.
Definition octet3 (s3 s4 : N) : option byte :=
  Byte.of_N ((s3 mod 4) * 64 + s4)%N.

(** The decoder ([atob] and the like): groups of four characters, of
    which the last may end in one or two pad characters; anything else
    is refused. *)
Fixpoint decode (s : string) : option (list byte) :=
  match s with
  | EmptyString => Some []
  | String c1 (String c2 (String c3 (String c4 rest))) =>
      if Ascii.eqb c4 pad then
        match rest with
        | EmptyString =>
            if Ascii.eqb c3 pad then
              s1 ← decode_char c1; s2 ← decode_char c2;
              b1 ← octet1 s1 s2;
              Some [b1]
            else
              s1 ← decode_char c1; s2 ← decode_char c2; s3 ← decode_char c3;
              b1 ← octet1 s1 s2; b2 ← octet2 s2 s3;
              Some [b1; b2]
        | String _ _ => None
        end
      else
        s1 ← decode_char c1; s2 ← decode_char c2;
        s3 ← decode_char c3; s4 ← decode_char c4;
        b1 ← octet1 s1 s2; b2 ← octet2 s2 s3; b3 ← octet3 s3 s4;
        bs ← decode rest;
        Some (b1 :: b2 :: b3 :: bs)
  | _ => None
  end.

End Base64.

(** A [File]: its declared media type, its content, and whether the
    platform can read it. *)
Record File : Type := { type : string; bytes : list byte; readable : bool }.

(** [reader.readAsDataURL(file)]: [Some result] when [onload] fires, [None]
    when [onerror] does.  The header is written with the declared type as
    it is; for a file without a declared type a browser may write a type of
    its own there, and nothing below reads the header of such a file. *)
Definition readAsDataURL (file : File) : option string :=
  if readable file
  then Some ("data:" +:+ type file +:+ ";base64," +:+ Base64.encode (bytes file))
  else None.

(** [s.split(',')]: the pieces of [s] between its commas, at least one. *)
Fixpoint split_comma (s : string) : list string :=
  match s with
  | EmptyString => [""]
  | String c rest =>
      if Ascii.eqb c ","%char then "" :: split_comma rest
      else match split_comma rest with
           | piece :: pieces => String c piece :: pieces
           | [] => [String c ""]
           end
  end.

(** ** App.tsx *)

(** [fileToDataUri], lines 6-15: the promise resolves with [reader.result]
    and rejects with the reader's error event, which is not an [Error]. *)
Definition fileToDataUri (file : File) : Settled string :=
  match readAsDataURL file with
  | Some result => Resolved result
  | None => Rejected (OtherThrown "ProgressEvent")
  end.

(** [ImageFile] (types.ts): [{ file: File; base64: string }]. *)
Record ImageFile : Type := { file : File; base64 : string }.

(** What [handleFileChange] hands to [onImageUpload].  The last case is
    [{ file, base64: undefined }]: index 1 of an array with one item. *)
Inductive Upload : Type :=
  | NothingChosen
  | Uploaded (image : ImageFile)
  | UploadedUndefined (file : File).

(** [handleFileChange], lines 29-36, on [event.target.files]. *)
Definition handleFileChange (files : list File) : Settled Upload :=
  match files !! 0%nat with
  | None => Resolved NothingChosen
  | Some file =>
      match fileToDataUri file with
      | Rejected error => Rejected error
      | Resolved dataUri =>
          match split_comma dataUri !! 1%nat with
          | Some base64 => Resolved (Uploaded {| file := file; base64 := base64 |})
          | None => Resolved (UploadedUndefined file)
          end
      end
  end.

(** The state hooks of [App], lines 69-73. *)
Record AppState : Type :=
  { originalImage : option ImageFile;
    editedImage : option string;
    isLoading : bool;
    error : option string;
    generatedAccessory : option string }.

(** [handleImageUpload], lines 76-81. *)
Definition handleImageUpload (image : ImageFile) (st : AppState) : AppState :=
  {| originalImage := Some image;
     editedImage := None;
     isLoading := isLoading st;
     error := None;
     generatedAccessory := None |}.

(** A value inside a template literal: [undefined] prints as its name. *)
Definition template (v : option string) : string := default "undefined" v.

(** Sequencing: [const x = await p; k x]. *)
Fixpoint and_then {A B} (p : Proc A) (k : A → Proc B) : Proc B :=
  match p with
  | Return value => k value
  | Throw error => Throw error
  | AwaitGenerateContent client req f =>
      AwaitGenerateContent client req (λ o, and_then (f o) k)
  | ConsoleError label error p' => ConsoleError label error (and_then p' k)
  end.

Definition filterPrompt : string :=
  "Apply a cool, black and white security camera filter with a slight fish-eye lens effect to the image.".
Definition accessoryPrompt : string :=
  "Overlay a stylish chain with the letters 'PUF' on it. The chain should be appropriately placed on the main subject of the image, whether it's a person, animal, or object.".
Definition accessoryType : string := "PUF Chain".

(** [handleGenerate], lines 83-112, as the state it leaves behind.  The
    [finally] clause runs after either branch; neither branch throws. *)
Definition handleGenerate (ai : GoogleGenAI) (st : AppState) : Proc AppState :=
  match originalImage st with
  | None =>
      Return {| originalImage := originalImage st;
                editedImage := editedImage st;
                isLoading := isLoading st;
                error := Some "Please upload an image first.";
                generatedAccessory := generatedAccessory st |}
  | Some image =>
      let prompt := filterPrompt +:+ " " +:+ accessoryPrompt in
      and_then
        (try_catch
           (and_then
              (editImageWithPrompt ai (base64 image) (type (file image)) prompt)
              (λ resultBase64,
                 Return {| originalImage := Some image;
                           editedImage :=
                             Some ("data:image/png;base64," +:+ template resultBase64);
                           isLoading := true;
                           error := None;
                           generatedAccessory := Some accessoryType |}))
           (λ e,
              Return {| originalImage := Some image;
                        editedImage := None;
                        isLoading := true;
                        error := Some (errorMessage e);
                        generatedAccessory := None |}))
        (λ st',
           Return {| originalImage := originalImage st';
                     editedImage := editedImage st';
                     isLoading := false;
                     error := error st';
                     generatedAccessory := generatedAccessory st' |})
  end.

(** [import { editImageWithPrompt } from './services/geminiService']
    (App.tsx line 2): the service module is evaluated first, and when that
    throws nothing of [App] is evaluated; otherwise the handlers of [App]
    close over the service's [ai]. *)
Definition load_App (env : gmap string string)
    : Thrown + (AppState → Proc AppState) :=
  match load_geminiService env with
  | inl error => inl error
  | inr ai => inr (handleGenerate ai)
  end.

(** ** What [App] puts on the screen *)

(** The initial values of the state hooks, lines 69-73. *)
Definition initial_state : AppState :=
  {| originalImage := None;
     editedImage := None;
     isLoading := false;
     error := None;
     generatedAccessory := None |}.

(** The state after lines 88-91 of [handleGenerate], which is what is on
    the screen while the call is awaited. *)
Definition requesting (st : AppState) : AppState :=
  {| originalImage := originalImage st;
     editedImage := None;
     isLoading := true;
     error := None;
     generatedAccessory := None |}.

(** [v && ...] for a [string | null]: [null] and the empty string are
    falsy. *)
Definition truthy (v : option string) : bool :=
  match v with
  | Some s => negb (String.eqb s "")
  | None => false
  end.

(** The [button] of lines 135-151. *)
Record GenerateButton : Type := { disabled : bool; caption : string }.

(** The parts of the JSX of lines 114-186 that depend on the state. *)
Record View : Type :=
  { upload_widget : bool;                       (* [<ImageUpload>], line 124 *)
    original_src : option string;               (* [src] of line 127 *)
    generate_button : option GenerateButton;    (* lines 131-153 *)
    spinner : bool;                             (* lines 160-165 *)
    error_text : option string;                 (* line 166 *)
    edited : option (string * option string);   (* lines 167-175: src, label *)
    placeholder : bool }.                       (* lines 176-181 *)

(** The JSX that [App] returns, lines 114-186. *)
Definition App_render (st : AppState) : View :=
  {| upload_widget :=
       match originalImage st with None => true | Some _ => false end;
     original_src :=
       match originalImage st with
       | None => None
       | Some image =>
           Some ("data:" +:+ type (file image) +:+ ";base64," +:+ base64 image)
       end;
     generate_button :=
       match originalImage st with
       | None => None
       | Some _ =>
           Some {| disabled := isLoading st;
                   caption := if isLoading st then "Generating..." else "Generate PFP" |}
       end;
     spinner := isLoading st;
     error_text := if truthy (error st) then error st else None;
     edited :=
       if truthy (editedImage st) then
         src ← editedImage st;
         Some (src, if truthy (generatedAccessory st)
                    then generatedAccessory st else None)
       else None;
     placeholder :=
       negb (isLoading st) && negb (truthy (error st))
       && negb (truthy (editedImage st)) |}.

(** What the user can do to a state at rest, one action at a time: choose
    files in the upload widget while it is on the screen (line 124, then
    [handleFileChange] and [handleImageUpload]), or press the button while
    it is on the screen and enabled (lines 135-137, then [handleGenerate]
    until it settles).  An upload is taken as a whole; a second choice of
    files made while the first file is still being read is not among these
    steps. *)
Inductive ui_step (ai : GoogleGenAI) : AppState → AppState → Prop :=
  | ui_upload st files image :
      upload_widget (App_render st) = true →
      handleFileChange files = Resolved (Uploaded image) →
      ui_step ai st (handleImageUpload image st)
  | ui_generate st button remote st' :
      generate_button (App_render st) = Some button →
      disabled button = false →
      settled (run remote (handleGenerate ai st)) = Resolved st' →
      ui_step ai st st'.

(** ** Vocabulary of the properties *)

(** A part that carries no inline data. *)
Definition plain (part : Part) : Prop := inlineData part = None.

(** The responses without image data: no candidate, or a first candidate
    with no content, with no parts list, or with parts of which none
    (possibly because there are none) carries inline data. *)
Inductive NoImageData : GenerateContentResponse → Prop :=
  | candidates_missing : NoImageData {| candidates := None |}
  | candidates_empty : NoImageData {| candidates := Some [] |}
  | content_missing others :
      NoImageData {| candidates := Some ({| content := None |} :: others) |}
  | parts_missing others :
      NoImageData
        {| candidates := Some ({| content := Some {| parts := None |} |} :: others) |}
  | parts_plain ps others :
      Forall plain ps →
      NoImageData
        {| candidates := Some ({| content := Some {| parts := Some ps |} |} :: others) |}.

(** A payload that is present and is the base64 text of some bytes. *)
Definition structurally_valid (payload : option string) : Prop :=
  ∃ text bs, payload = Some text ∧ Base64.decode text = Some bs.

(** The two outcomes the specification allows an invocation: a valid
    payload or a failure with a message that is not empty. *)
Definition well_formed_result (r : Settled (option string)) : Prop :=
  match r with
  | Resolved payload => structurally_valid payload
  | Rejected error => errorMessage error ≠ ""
  end.

(** Whether a string has a comma in it. *)
Fixpoint has_comma (s : string) : bool :=
  match s with
  | EmptyString => false
  | String c rest => Ascii.eqb c ","%char || has_comma rest
  end.

(** * Properties *)

(** ** The response scan *)

Section Scan.

Implicit Types (ps pre post : list Part) (part : Part) (blob : Blob).

Lemma scan_parts_first pre part blob post :
  Forall plain pre →
  inlineData part = Some blob →
  scan_parts (pre ++ part :: post) = Some (data blob).
Proof.
  intros Hpre Hpart. induction Hpre as [|q pre Hq _ IH]; simpl.
  - by rewrite Hpart.
  - by rewrite Hq.
Qed.

Lemma scan_parts_none ps : Forall plain ps → scan_parts ps = None.
Proof.
  induction 1 as [|q ps Hq _ IH]; simpl; [done|]. by rewrite Hq.
Qed.

(** The loop finds nothing exactly when no part carries inline data. *)
Lemma scan_parts_none_iff ps : scan_parts ps = None ↔ Forall plain ps.
Proof.
  split; [|apply scan_parts_none].
  induction ps as [|q ps IH]; simpl; [constructor|].
  destruct (inlineData q) eqn:Hq; [done|]. intros H. constructor; auto.
Qed.

(** [NoImageData] names exactly the responses on which the loop, run on
    what the optional chain yields, finds nothing. *)
Lemma NoImageData_iff (response : GenerateContentResponse) :
  NoImageData response ↔ scan_parts (response_parts response) = None.
Proof.
  split.
  - intros [| | | |ps others Hps]; try reflexivity.
    unfold response_parts; simpl. by apply scan_parts_none.
  - destruct response as [[[|[[[[ps|]]|]] others]|]]; try by constructor.
    unfold response_parts; simpl. intros H.
    constructor. by apply scan_parts_none_iff.
Qed.

End Scan.

(** ** One invocation *)

Section Invocation.

Variables (ai : GoogleGenAI) (base64ImageData mimeType prompt : string).

Local Abbreviation invocation :=
  (editImageWithPrompt ai base64ImageData mimeType prompt).

(** The settled promise, read off the way the call settled. *)
Lemma editImageWithPrompt_fulfilled response :
  settled (run (answering (Fulfilled response)) invocation) =
  match scan_parts (response_parts response) with
  | Some payload => Resolved payload
  | None =>
      Rejected (ErrorInstance
        "Failed to generate image: No image data found in the API response.")
  end.
Proof.
  unfold editImageWithPrompt, answering. simpl.
  by destruct (scan_parts (response_parts response)).
Qed.

Lemma editImageWithPrompt_rejected error :
  settled (run (answering (RejectedWith error)) invocation) =
  Rejected (ErrorInstance ("Failed to generate image: " +:+ errorMessage error)).
Proof. reflexivity. Qed.

(** The one call that is sent. *)
Lemma editImageWithPrompt_sent (remote : Remote) :
  sent (run remote invocation)
  = [ (ai,
       {| model := "gemini-2.5-flash-image";
          contents :=
            {| parts := Some
                 [ {| inlineData := Some {| data := Some base64ImageData;
                                            GenAI.mimeType := Some mimeType |};
                      text := None |};
                   {| inlineData := None; text := Some prompt |} ] |};
          config := {| responseModalities := [IMAGE] |} |}) ].
Proof.
  unfold editImageWithPrompt. simpl.
  destruct (remote ai _) as [response|e]; simpl; [|reflexivity].
  by destruct (scan_parts (response_parts response)).
Qed.

(** A remote service is consulted once, so only that answer matters. *)
Lemma editImageWithPrompt_one_answer (remote : Remote) :
  ∃ req, sent (run remote invocation) = [(ai, req)] ∧
         settled (run remote invocation) =
         settled (run (answering (remote ai req)) invocation).
Proof.
  eexists; split.
  - unfold editImageWithPrompt. simpl.
    destruct (remote ai _) as [response|e]; simpl; [|reflexivity].
    by destruct (scan_parts (response_parts response)).
  - unfold editImageWithPrompt, answering. simpl.
    destruct (remote ai _) as [response|e]; simpl; [|reflexivity].
    by destruct (scan_parts (response_parts response)).
Qed.

End Invocation.

(** ** The claims about [editImageWithPrompt] *)

(** C1.  Whatever the response, the parts of its first candidate are walked
    in order and the promise resolves with the [data] of the first part
    that carries inline data; the parts before it (text or other), the parts
    after it (further images included) and the other candidates have no
    influence on the result. *)
Theorem first_image_part_wins
    (ai : GoogleGenAI) (base64ImageData mimeType prompt : string)
    (pre post : list Part) (part : Part) (blob : Blob)
    (others : list Candidate) :
  Forall plain pre →
  inlineData part = Some blob →
  settled
    (run (answering (Fulfilled
            {| candidates :=
                 Some ({| content := Some {| parts := Some (pre ++ part :: post) |} |}
                       :: others) |}))
         (editImageWithPrompt ai base64ImageData mimeType prompt))
  = Resolved (data blob).
Proof.
  intros Hpre Hpart. rewrite editImageWithPrompt_fulfilled.
  unfold response_parts; simpl.
  by rewrite (scan_parts_first pre part blob post Hpre Hpart).
Qed.

(** The example of the specification: a text part, then an image part. *)
Lemma first_image_part_wins_witness :
  settled
    (run (answering (Fulfilled
            {| candidates :=
                 Some [ {| content := Some {| parts := Some
                     [ {| inlineData := None; text := Some "ok" |};
                       {| inlineData := Some {| data := Some "AAAA";
                                                GenAI.mimeType := Some "image/png" |};
                          text := None |};
                       {| inlineData := Some {| data := Some "BBBB";
                                                GenAI.mimeType := Some "image/png" |};
                          text := None |} ] |} |} ] |}))
         (editImageWithPrompt {| apiKey := "k" |} "QUJD" "image/png" "edit"))
  = Resolved (Some "AAAA").
Proof.
  apply (first_image_part_wins {| apiKey := "k" |} "QUJD" "image/png" "edit"
           [ {| inlineData := None; text := Some "ok" |} ]
           [ {| inlineData := Some {| data := Some "BBBB";
                                      GenAI.mimeType := Some "image/png" |};
                text := None |} ]
           {| inlineData := Some {| data := Some "AAAA";
                                    GenAI.mimeType := Some "image/png" |};
              text := None |}
           {| data := Some "AAAA"; GenAI.mimeType := Some "image/png" |} []).
  - repeat constructor.
  - reflexivity.
Defined.

(** C2.  A response with no candidate, with a first candidate that has no
    content or no parts list, or whose parts (none, perhaps) carry no inline
    data, makes the promise reject with the no-image-data message: it is
    neither resolved nor left to a fault of the traversal. *)
Theorem no_image_data_is_a_failure
    (ai : GoogleGenAI) (base64ImageData mimeType prompt : string)
    (response : GenerateContentResponse) :
  NoImageData response →
  settled (run (answering (Fulfilled response))
             (editImageWithPrompt ai base64ImageData mimeType prompt))
  = Rejected (ErrorInstance
      "Failed to generate image: No image data found in the API response.").
Proof.
  intros H. rewrite editImageWithPrompt_fulfilled.
  destruct H as [| | | |ps others Hps]; try reflexivity.
  unfold response_parts; simpl. by rewrite (scan_parts_none ps Hps).
Qed.

Lemma no_image_data_is_a_failure_witness :
  settled (run (answering (Fulfilled {| candidates := Some [] |}))
             (editImageWithPrompt {| apiKey := "k" |} "QUJD" "image/png" "edit"))
  = Rejected (ErrorInstance
      "Failed to generate image: No image data found in the API response.").
Proof.
  apply (no_image_data_is_a_failure {| apiKey := "k" |} "QUJD" "image/png" "edit"
           {| candidates := Some [] |}).
  constructor.
Defined.

(** C3.  Every way an invocation can fail ends in the one handler: a call
    that rejects with an [Error] gives the prefix followed by that error's
    message, a call that rejects with anything else gives the prefix
    followed by the generic text, a response without image data gives the
    prefix followed by the no-image message; and no rejection of the
    invocation has another form. *)
Theorem failures_are_rewrapped
    (ai : GoogleGenAI) (base64ImageData mimeType prompt : string) :
  (∀ message,
     settled (run (answering (RejectedWith (ErrorInstance message)))
                (editImageWithPrompt ai base64ImageData mimeType prompt))
     = Rejected (ErrorInstance ("Failed to generate image: " +:+ message)))
  ∧ (∀ shown,
     settled (run (answering (RejectedWith (OtherThrown shown)))
                (editImageWithPrompt ai base64ImageData mimeType prompt))
     = Rejected (ErrorInstance
         ("Failed to generate image: " +:+ "An unknown error occurred.")))
  ∧ (∀ response,
     scan_parts (response_parts response) = None →
     settled (run (answering (Fulfilled response))
                (editImageWithPrompt ai base64ImageData mimeType prompt))
     = Rejected (ErrorInstance
         ("Failed to generate image: " +:+ "No image data found in the API response.")))
  ∧ (∀ (remote : Remote) error,
     settled (run remote (editImageWithPrompt ai base64ImageData mimeType prompt))
     = Rejected error →
     ∃ cause, error = ErrorInstance ("Failed to generate image: " +:+ cause)).
Proof.
  split; [|split; [|split]].
  - intros message. apply editImageWithPrompt_rejected.
  - intros shown. apply editImageWithPrompt_rejected.
  - intros response H. rewrite editImageWithPrompt_fulfilled. by rewrite H.
  - intros remote error.
    destruct (editImageWithPrompt_one_answer ai base64ImageData mimeType prompt remote)
      as (req & _ & ->).
    destruct (remote ai req) as [response|e].
    + rewrite editImageWithPrompt_fulfilled.
      destruct (scan_parts (response_parts response)); [done|].
      intros [= <-]. by eexists.
    + rewrite editImageWithPrompt_rejected. intros [= <-]. by eexists.
Qed.

(** A connection reset, a response of text only, and a thrown string. *)
Lemma failures_are_rewrapped_witness :
  settled (run (answering (RejectedWith (ErrorInstance "connection reset")))
             (editImageWithPrompt {| apiKey := "k" |} "QUJD" "image/png" "edit"))
  = Rejected (ErrorInstance "Failed to generate image: connection reset")
  ∧ settled (run (answering (Fulfilled {| candidates := Some
               [ {| content := Some {| parts := Some
                    [ {| inlineData := None; text := Some "ok" |} ] |} |} ] |}))
             (editImageWithPrompt {| apiKey := "k" |} "QUJD" "image/png" "edit"))
  = Rejected (ErrorInstance
      "Failed to generate image: No image data found in the API response.")
  ∧ ∃ cause,
      ErrorInstance "Failed to generate image: An unknown error occurred."
      = ErrorInstance ("Failed to generate image: " +:+ cause).
Proof.
  destruct (failures_are_rewrapped {| apiKey := "k" |} "QUJD" "image/png" "edit")
    as (Herr & _ & Hnone & Hall).
  split; [apply Herr|]. split.
  - apply Hnone. reflexivity.
  - apply (Hall (answering (RejectedWith (OtherThrown "boom")))). reflexivity.
Defined.

(** C4.  Whatever the image, the media type and the instruction, and
    however the service answers, one call is sent: to the model
    ["gemini-2.5-flash-image"], asking for the image modality, with exactly
    two parts, the inline image (data and media type) and then the text of
    the instruction. *)
Theorem request_is_image_then_text
    (ai : GoogleGenAI) (base64ImageData mimeType prompt : string)
    (remote : Remote) :
  sent (run remote (editImageWithPrompt ai base64ImageData mimeType prompt))
  = [ (ai,
       {| model := "gemini-2.5-flash-image";
          contents :=
            {| parts := Some
                 [ {| inlineData := Some {| data := Some base64ImageData;
                                            GenAI.mimeType := Some mimeType |};
                      text := None |};
                   {| inlineData := None; text := Some prompt |} ] |};
          config := {| responseModalities := [IMAGE] |} |}) ].
Proof. apply editImageWithPrompt_sent. Qed.

(** C5, as the specification states it, fails: a first image part whose
    blob has no [data] makes the promise resolve with [undefined], which is
    no payload at all. *)
Lemma valid_payload_counterexample :
  ¬ well_formed_result
      (settled
         (run (answering (Fulfilled
                 {| candidates := Some
                      [ {| content := Some {| parts := Some
                           [ {| inlineData := Some {| data := None;
                                                      GenAI.mimeType := Some "image/png" |};
                                text := None |} ] |} |} ] |}))
              (editImageWithPrompt {| apiKey := "k" |} "QUJD" "image/png" "edit"))).
Proof.
  simpl. intros (text & bs & Hsome & _). discriminate Hsome.
Qed.

(** C5, amended.  For all arguments and every way the call settles, the
    promise settles in one of two ways: resolved with the [data] that the
    scan found, as it is, after a fulfilled call; or rejected with an
    [Error] whose message starts with the prefix and so is not empty.
    Nothing else escapes. *)
Theorem settles_resolved_or_rewrapped
    (ai : GoogleGenAI) (base64ImageData mimeType prompt : string)
    (o : Outcome) :
  (∃ response payload,
     o = Fulfilled response ∧
     scan_parts (response_parts response) = Some payload ∧
     settled (run (answering o)
                (editImageWithPrompt ai base64ImageData mimeType prompt))
     = Resolved payload)
  ∨ (∃ cause,
     settled (run (answering o)
                (editImageWithPrompt ai base64ImageData mimeType prompt))
     = Rejected (ErrorInstance ("Failed to generate image: " +:+ cause))
     ∧ "Failed to generate image: " +:+ cause ≠ "").
Proof.
  destruct o as [response|e].
  - rewrite editImageWithPrompt_fulfilled.
    destruct (scan_parts (response_parts response)) as [payload|] eqn:Hscan.
    + left. by exists response, payload.
    + right. by exists "No image data found in the API response.".
  - right. exists (errorMessage e).
    by rewrite editImageWithPrompt_rejected.
Qed.

(** C9.  The payload is not looked at: when the first part that carries
    inline data has a blob whose [data] is missing or empty, the promise
    still resolves, with that value. *)
Theorem empty_payload_is_a_success
    (ai : GoogleGenAI) (base64ImageData mimeType prompt : string)
    (response : GenerateContentResponse)
    (pre post : list Part) (part : Part) (blob : Blob) :
  response_parts response = pre ++ part :: post →
  Forall plain pre →
  inlineData part = Some blob →
  data blob = None ∨ data blob = Some "" →
  settled (run (answering (Fulfilled response))
             (editImageWithPrompt ai base64ImageData mimeType prompt))
  = Resolved (data blob)
  ∧ ∀ error,
      settled (run (answering (Fulfilled response))
                 (editImageWithPrompt ai base64ImageData mimeType prompt))
      ≠ Rejected error.
Proof.
  intros Hparts Hpre Hpart _.
  rewrite editImageWithPrompt_fulfilled, Hparts.
  rewrite (scan_parts_first pre part blob post Hpre Hpart).
  split; [reflexivity|discriminate].
Qed.

(** A blob with an empty [data], after a text part. *)
Lemma empty_payload_is_a_success_witness :
  settled (run (answering (Fulfilled {| candidates := Some
             [ {| content := Some {| parts := Some
                  [ {| inlineData := None; text := Some "ok" |};
                    {| inlineData := Some {| data := Some "";
                                             GenAI.mimeType := None |};
                       text := None |} ] |} |} ] |}))
             (editImageWithPrompt {| apiKey := "k" |} "QUJD" "image/png" "edit"))
  = Resolved (Some "").
Proof.
  apply (empty_payload_is_a_success {| apiKey := "k" |} "QUJD" "image/png" "edit" _
           [ {| inlineData := None; text := Some "ok" |} ] []
           {| inlineData := Some {| data := Some ""; GenAI.mimeType := None |};
              text := None |}
           {| data := Some ""; GenAI.mimeType := None |}).
  - reflexivity.
  - repeat constructor.
  - reflexivity.
  - right; reflexivity.
Defined.

(** ** Sequencing and handlers *)

Section Combinators.

Context {A B : Type} (remote : Remote).

Lemma settled_and_then (p : Proc A) (k : A → Proc B) :
  settled (run remote (and_then p k)) =
  match settled (run remote p) with
  | Resolved value => settled (run remote (k value))
  | Rejected error => Rejected error
  end.
Proof. induction p as [| |client req f IH|label e p IH]; simpl; auto. Qed.

Lemma sent_and_then (p : Proc A) (k : A → Proc B) :
  sent (run remote (and_then p k)) =
  sent (run remote p) ++
  match settled (run remote p) with
  | Resolved value => sent (run remote (k value))
  | Rejected _ => []
  end.
Proof.
  induction p as [| |client req f IH|label e p IH]; simpl; auto.
  by rewrite IH.
Qed.

Lemma settled_try_catch (p : Proc A) (handler : Thrown → Proc A) :
  settled (run remote (try_catch p handler)) =
  match settled (run remote p) with
  | Resolved value => Resolved value
  | Rejected error => settled (run remote (handler error))
  end.
Proof. induction p as [| |client req f IH|label e p IH]; simpl; auto. Qed.

Lemma sent_try_catch (p : Proc A) (handler : Thrown → Proc A) :
  sent (run remote (try_catch p handler)) =
  sent (run remote p) ++
  match settled (run remote p) with
  | Resolved _ => []
  | Rejected error => sent (run remote (handler error))
  end.
Proof.
  induction p as [| |client req f IH|label e p IH]; simpl; auto.
  by rewrite IH.
Qed.

End Combinators.

(** ** Loading the modules *)

(** Every call that [handleGenerate] sends goes through the client it was
    closed over. *)
Lemma handleGenerate_client (ai : GoogleGenAI) (remote : Remote) (st : AppState) :
  Forall (λ call, call.1 = ai) (sent (run remote (handleGenerate ai st))).
Proof.
  unfold handleGenerate. destruct (originalImage st) as [image|]; [|constructor].
  rewrite sent_and_then, settled_try_catch, sent_try_catch.
  rewrite sent_and_then, settled_and_then, editImageWithPrompt_sent.
  destruct (settled (run remote (editImageWithPrompt _ _ _ _))); simpl;
    repeat constructor.
Qed.

(** C7.  When [API_KEY] is missing from the environment, or is there but
    empty, loading the service module throws, and with it the load of [App]:
    there is no handler that could start an invocation.  Whenever the load
    does succeed the key was there and not empty, and every call a handler
    sends goes through the client made with that key. *)
Theorem missing_credential_stops_the_load (env : gmap string string) :
  (env !! "API_KEY" = None ∨ env !! "API_KEY" = Some "" →
   load_geminiService env
     = inl (ErrorInstance "API_KEY environment variable not set")
   ∧ load_App env
     = inl (ErrorInstance "API_KEY environment variable not set"))
  ∧ (∀ handler,
       load_App env = inr handler →
       ∃ key, env !! "API_KEY" = Some key ∧ key ≠ "" ∧
         ∀ remote st,
           Forall (λ call, apiKey call.1 = key) (sent (run remote (handler st)))).
Proof.
  unfold load_App, load_geminiService. split.
  - intros [-> | ->]; split; reflexivity.
  - intros handler. destruct (env !! "API_KEY") as [key|]; [|done].
    destruct (decide (key = "")) as [->|Hkey]; [done|].
    intros [= <-]. exists key. repeat split; [done|].
    intros remote st.
    eapply Forall_impl; [apply handleGenerate_client|].
    by intros call ->.
Qed.

(** An empty environment, and one that has the key. *)
Lemma missing_credential_stops_the_load_witness :
  load_App (∅ : gmap string string)
    = inl (ErrorInstance "API_KEY environment variable not set")
  ∧ ∃ key, ({[ "API_KEY" := "secret" ]} : gmap string string) !! "API_KEY" = Some key
           ∧ key ≠ "".
Proof.
  split.
  - apply (missing_credential_stops_the_load ∅). left. reflexivity.
  - destruct (missing_credential_stops_the_load {[ "API_KEY" := "secret" ]})
      as [_ H].
    destruct (H (handleGenerate {| apiKey := "secret" |}) eq_refl)
      as (key & Hkey & Hne & _).
    exists key. split; assumption.
Defined.

(** ** Overlapping invocations *)

Section Interleaving.

Context {R : Type}.
Implicit Types (t : Task R) (w : World) (s : Overlap R).

(** A turn of an invocation run alone changes nothing of how it ends. *)
Lemma run_alone_step (remote : Remote) t w :
  run_alone remote (step remote t w).1 (step remote t w).2 = run_alone remote t w.
Proof. by destruct t. Qed.

Lemma remaining_step (remote : Remote) t w :
  remaining remote (step remote t w).1 (step remote t w).2
  = pred (remaining remote t w).
Proof. by destruct t. Qed.

Lemma outcome_of_finished (remote : Remote) t w :
  remaining remote t w = 0 → outcome_of t = Some (run_alone remote t w).1.
Proof. by destruct t. Qed.

(** A turn of a confined body leaves a confined body and the module's
    binding in place. *)
Lemma confined_step (remote : Remote) t w :
  confined t →
  confined (step remote t w).1 ∧ module_ai (step remote t w).2 = module_ai w.
Proof. intros [result|k Hk Hc|update k Hu Hc|client req k Hc]; simpl; auto using confined. Qed.

(** A confined body ends the same way in two worlds with the same [ai],
    after as many turns: what another invocation wrote makes no
    difference to it. *)
Lemma confined_agree (remote : Remote) t w w' :
  confined t →
  module_ai w = module_ai w' →
  (run_alone remote t w).1 = (run_alone remote t w').1
  ∧ remaining remote t w = remaining remote t w'.
Proof.
  intros Hc. revert w w'.
  induction Hc as [result|k Hk _ IH|update k Hu _ IH|client req k _ IH];
    intros w w' Hai; simpl.
  - done.
  - rewrite <- (Hk w w' Hai). destruct (IH w w w' Hai) as [-> ->]. done.
  - destruct (IH (update w) (update w')) as [-> ->]; [|done].
    by rewrite !Hu.
  - destruct (IH (remote client req) w w' Hai) as [-> ->]. done.
Qed.

Lemma turns_of_cons (turn turn' : Turn) (schedule : list Turn) :
  turns_of turn (turn' :: schedule) =
  if decide (turn' = turn) then S (turns_of turn schedule)
  else turns_of turn schedule.
Proof. unfold turns_of. rewrite filter_cons. by case_decide. Qed.

(** Two confined bodies on one world: given turns enough, each settles as
    it does alone, whatever the other did in between, and the module's
    binding is where it was. *)
Lemma interleave_settles (remote1 remote2 : Remote) (schedule : list Turn) s :
  confined (first s) →
  confined (second s) →
  remaining remote1 (first s) (world s) ≤ turns_of First schedule →
  remaining remote2 (second s) (world s) ≤ turns_of Second schedule →
  outcome_of (first (interleave remote1 remote2 schedule s))
    = Some (run_alone remote1 (first s) (world s)).1
  ∧ outcome_of (second (interleave remote1 remote2 schedule s))
    = Some (run_alone remote2 (second s) (world s)).1
  ∧ module_ai (world (interleave remote1 remote2 schedule s))
    = module_ai (world s).
Proof.
  revert s. induction schedule as [|turn schedule IH]; intros s Hc1 Hc2 H1 H2.
  - cbn in H1, H2. repeat split; try apply outcome_of_finished; lia.
  - rewrite turns_of_cons in H1, H2. destruct turn; simpl.
    + rewrite decide_True in H1 by done. rewrite decide_False in H2 by done.
      pose proof (run_alone_step remote1 (first s) (world s)) as Hrun.
      pose proof (remaining_step remote1 (first s) (world s)) as Hrem.
      destruct (confined_step remote1 (first s) (world s) Hc1) as [Hc1' Hai].
      destruct (step remote1 (first s) (world s)) as [t w]; simpl in *.
      destruct (confined_agree remote2 (second s) w (world s) Hc2 Hai)
        as [Hsame Hturns].
      destruct (IH {| first := t; second := second s; world := w |})
        as (IH1 & IH2 & IH3); simpl; try done; try lia.
      simpl in IH1, IH2, IH3. rewrite IH1, IH2, IH3, Hrun, Hsame. done.
    + rewrite decide_False in H1 by done. rewrite decide_True in H2 by done.
      pose proof (run_alone_step remote2 (second s) (world s)) as Hrun.
      pose proof (remaining_step remote2 (second s) (world s)) as Hrem.
      destruct (confined_step remote2 (second s) (world s) Hc2) as [Hc2' Hai].
      destruct (step remote2 (second s) (world s)) as [t w]; simpl in *.
      destruct (confined_agree remote1 (first s) w (world s) Hc1 Hai)
        as [Hsame Hturns].
      destruct (IH {| first := first s; second := t; world := w |})
        as (IH1 & IH2 & IH3); simpl; try done; try lia.
      simpl in IH1, IH2, IH3. rewrite IH1, IH2, IH3, Hrun, Hsame. done.
Qed.

End Interleaving.

(** A body that is not confined is not independent: one that resolves with
    the number of lines on the console settles otherwise after another
    invocation has written a line than it does alone. *)
Lemma interference_is_expressible :
  outcome_of
    (first (interleave (answering (RejectedWith (OtherThrown "none")))
              (answering (RejectedWith (OtherThrown "none")))
              [Second; First]
              {| first := ReadWorld (λ w, Done (Resolved (length (console_lines w))));
                 second := WriteWorld (Page.console_error "line" (OtherThrown "none"))
                             (Done (Resolved 0));
                 world := {| module_ai := {| apiKey := "k" |};
                             console_lines := [] |} |}))
  ≠ Some (run_alone (answering (RejectedWith (OtherThrown "none")))
            (ReadWorld (λ w, Done (Resolved (length (console_lines w)))))
            {| module_ai := {| apiKey := "k" |}; console_lines := [] |}).1.
Proof. simpl. discriminate. Qed.

(** The body of [editImageWithPrompt] reads the module's [ai] and nothing
    else of the world, and writes to the console only. *)
Lemma task_editImageWithPrompt_confined (base64ImageData mimeType prompt : string) :
  confined (Page.editImageWithPrompt base64ImageData mimeType prompt).
Proof.
  unfold Page.editImageWithPrompt. simpl. constructor.
  - by intros w w' ->.
  - intros w. constructor. intros [response|e].
    + destruct (scan_parts (response_parts response)); simpl;
        repeat constructor.
    + simpl. repeat constructor.
Qed.

(** Run alone in a world, the body settles as the procedure closed over
    that world's [ai] does, and leaves on the console the lines of that
    procedure after those that were there. *)
Lemma task_editImageWithPrompt_alone
    (base64ImageData mimeType prompt : string) (remote : Remote) (w : World) :
  (run_alone remote (Page.editImageWithPrompt base64ImageData mimeType prompt) w).1
  = settled (run remote
      (editImageWithPrompt (module_ai w) base64ImageData mimeType prompt))
  ∧ (run_alone remote (Page.editImageWithPrompt base64ImageData mimeType prompt) w).2
  = {| module_ai := module_ai w;
       console_lines :=
         console_lines w ++
         console (run remote
           (editImageWithPrompt (module_ai w) base64ImageData mimeType prompt)) |}.
Proof.
  unfold Page.editImageWithPrompt, editImageWithPrompt. simpl.
  destruct (remote (module_ai w) _) as [response|e]; simpl.
  - destruct (scan_parts (response_parts response)); simpl; [|done].
    split; [done|]. destruct w. simpl. by rewrite app_nil_r.
  - done.
Qed.

(** An invocation needs three turns at most: the read of [ai], the call
    and the console line. *)
Lemma task_editImageWithPrompt_remaining
    (base64ImageData mimeType prompt : string) (remote : Remote) (w : World) :
  remaining remote (Page.editImageWithPrompt base64ImageData mimeType prompt) w ≤ 3.
Proof.
  unfold Page.editImageWithPrompt. simpl.
  destruct (remote (module_ai w) _) as [response|e]; simpl; [|lia].
  destruct (scan_parts (response_parts response)); simpl; lia.
Qed.

(** C8.  Two invocations with their own arguments on one page, sharing the
    module's [ai] and the console, run in any order of turns that lets each
    of them finish: each settles exactly as it does alone, from its own
    arguments and the answer to its own call.  The body can do no other:
    of the shared world it reads the binding [ai] only, which it never
    writes, and the console it writes to it never reads. *)
Theorem overlapping_invocations_are_independent
    (w : World)
    (base64ImageData1 mimeType1 prompt1 : string)
    (base64ImageData2 mimeType2 prompt2 : string)
    (remote1 remote2 : Remote) (schedule : list Turn) :
  3 ≤ turns_of First schedule →
  3 ≤ turns_of Second schedule →
  outcome_of
    (first (interleave remote1 remote2 schedule
       {| first := Page.editImageWithPrompt base64ImageData1 mimeType1 prompt1;
          second := Page.editImageWithPrompt base64ImageData2 mimeType2 prompt2;
          world := w |}))
  = Some (settled (run remote1
            (editImageWithPrompt (module_ai w) base64ImageData1 mimeType1 prompt1)))
  ∧ outcome_of
    (second (interleave remote1 remote2 schedule
       {| first := Page.editImageWithPrompt base64ImageData1 mimeType1 prompt1;
          second := Page.editImageWithPrompt base64ImageData2 mimeType2 prompt2;
          world := w |}))
  = Some (settled (run remote2
            (editImageWithPrompt (module_ai w) base64ImageData2 mimeType2 prompt2)))
  ∧ confined (Page.editImageWithPrompt base64ImageData1 mimeType1 prompt1)
  ∧ confined (Page.editImageWithPrompt base64ImageData2 mimeType2 prompt2).
Proof.
  intros H1 H2.
  pose proof (task_editImageWithPrompt_confined base64ImageData1 mimeType1 prompt1)
    as Hc1.
  pose proof (task_editImageWithPrompt_confined base64ImageData2 mimeType2 prompt2)
    as Hc2.
  assert (Hr1 : remaining remote1
            (Page.editImageWithPrompt base64ImageData1 mimeType1 prompt1) w
          ≤ turns_of First schedule)
    by (etrans; [apply task_editImageWithPrompt_remaining|done]).
  assert (Hr2 : remaining remote2
            (Page.editImageWithPrompt base64ImageData2 mimeType2 prompt2) w
          ≤ turns_of Second schedule)
    by (etrans; [apply task_editImageWithPrompt_remaining|done]).
  destruct (interleave_settles remote1 remote2 schedule
           {| first := Page.editImageWithPrompt base64ImageData1 mimeType1 prompt1;
              second := Page.editImageWithPrompt base64ImageData2 mimeType2 prompt2;
              world := w |} Hc1 Hc2 Hr1 Hr2) as (Hfirst & Hsecond & _).
  cbn [first second world] in Hfirst, Hsecond.
  rewrite (proj1 (task_editImageWithPrompt_alone _ _ _ remote1 w)) in Hfirst.
  rewrite (proj1 (task_editImageWithPrompt_alone _ _ _ remote2 w)) in Hsecond.
  done.
Qed.

(** The first call fails, the second succeeds, their turns alternate. *)
Lemma overlapping_invocations_are_independent_witness :
  outcome_of
    (first (interleave
       (answering (RejectedWith (ErrorInstance "connection reset")))
       (answering (Fulfilled {| candidates := Some
          [ {| content := Some {| parts := Some
               [ {| inlineData := Some {| data := Some "AAAA";
                                          GenAI.mimeType := Some "image/png" |};
                    text := None |} ] |} |} ] |}))
       [First; Second; First; Second; Second; First]
       {| first := Page.editImageWithPrompt "QUJD" "image/png" "one";
          second := Page.editImageWithPrompt "REVG" "image/jpeg" "two";
          world := {| module_ai := {| apiKey := "k" |}; console_lines := [] |} |}))
  = Some (Rejected (ErrorInstance "Failed to generate image: connection reset"))
  ∧ outcome_of
    (second (interleave
       (answering (RejectedWith (ErrorInstance "connection reset")))
       (answering (Fulfilled {| candidates := Some
          [ {| content := Some {| parts := Some
               [ {| inlineData := Some {| data := Some "AAAA";
                                          GenAI.mimeType := Some "image/png" |};
                    text := None |} ] |} |} ] |}))
       [First; Second; First; Second; Second; First]
       {| first := Page.editImageWithPrompt "QUJD" "image/png" "one";
          second := Page.editImageWithPrompt "REVG" "image/jpeg" "two";
          world := {| module_ai := {| apiKey := "k" |}; console_lines := [] |} |}))
  = Some (Resolved (Some "AAAA")).
Proof.
  destruct (overlapping_invocations_are_independent
           {| module_ai := {| apiKey := "k" |}; console_lines := [] |}
           "QUJD" "image/png" "one" "REVG" "image/jpeg" "two"
           (answering (RejectedWith (ErrorInstance "connection reset")))
           (answering (Fulfilled {| candidates := Some
              [ {| content := Some {| parts := Some
                   [ {| inlineData := Some {| data := Some "AAAA";
                                              GenAI.mimeType := Some "image/png" |};
                        text := None |} ] |} |} ] |}))
           [First; Second; First; Second; Second; First])
    as (Hfirst & Hsecond & _).
  - vm_compute. lia.
  - vm_compute. lia.
  - split; [exact Hfirst|exact Hsecond].
Defined.

(** ** The caller *)

(** What [handleGenerate] leaves behind, read off the settled invocation. *)
Lemma handleGenerate_settled
    (ai : GoogleGenAI) (remote : Remote) (st : AppState) (image : ImageFile) :
  originalImage st = Some image →
  settled (run remote (handleGenerate ai st)) =
  match settled (run remote
          (editImageWithPrompt ai (base64 image) (type (file image))
             (filterPrompt +:+ " " +:+ accessoryPrompt))) with
  | Resolved resultBase64 =>
      Resolved {| originalImage := Some image;
                  editedImage :=
                    Some ("data:image/png;base64," +:+ template resultBase64);
                  isLoading := false;
                  error := None;
                  generatedAccessory := Some accessoryType |}
  | Rejected e =>
      Resolved {| originalImage := Some image;
                  editedImage := None;
                  isLoading := false;
                  error := Some (errorMessage e);
                  generatedAccessory := None |}
  end.
Proof.
  intros Himage. unfold handleGenerate. rewrite Himage.
  rewrite settled_and_then, settled_try_catch, settled_and_then.
  by destruct (settled (run remote (editImageWithPrompt _ _ _ _))).
Qed.

(** C10.  Of the blob that the scan stops at, the invocation resolves with
    the [data] alone; the blob's own [mimeType] appears nowhere in what
    follows, and [handleGenerate] shows the data behind the fixed header
    [data:image/png;base64,]. *)
Theorem result_is_labelled_png
    (ai : GoogleGenAI) (st : AppState) (image : ImageFile)
    (response : GenerateContentResponse)
    (pre post : list Part) (part : Part) (blob : Blob) :
  originalImage st = Some image →
  response_parts response = pre ++ part :: post →
  Forall plain pre →
  inlineData part = Some blob →
  settled (run (answering (Fulfilled response))
             (editImageWithPrompt ai (base64 image) (type (file image))
                (filterPrompt +:+ " " +:+ accessoryPrompt)))
  = Resolved (data blob)
  ∧ settled (run (answering (Fulfilled response)) (handleGenerate ai st))
  = Resolved {| originalImage := Some image;
                editedImage :=
                  Some ("data:image/png;base64," +:+ template (data blob));
                isLoading := false;
                error := None;
                generatedAccessory := Some "PUF Chain" |}.
Proof.
  intros Himage Hparts Hpre Hpart.
  assert (Hedit :
    settled (run (answering (Fulfilled response))
               (editImageWithPrompt ai (base64 image) (type (file image))
                  (filterPrompt +:+ " " +:+ accessoryPrompt)))
    = Resolved (data blob)).
  { rewrite editImageWithPrompt_fulfilled, Hparts.
    by rewrite (scan_parts_first pre part blob post Hpre Hpart). }
  split; [exact Hedit|].
  by rewrite (handleGenerate_settled ai _ st image Himage), Hedit.
Qed.

(** The model answers with a JPEG; it is shown as a PNG. *)
Lemma result_is_labelled_png_witness :
  settled
    (run (answering (Fulfilled {| candidates := Some
            [ {| content := Some {| parts := Some
                 [ {| inlineData := Some {| data := Some "AAAA";
                                            GenAI.mimeType := Some "image/jpeg" |};
                      text := None |} ] |} |} ] |}))
         (handleGenerate {| apiKey := "k" |}
            {| originalImage :=
                 Some {| file := {| type := "image/webp"; bytes := [];
                                    readable := true |};
                         base64 := "" |};
               editedImage := None; isLoading := false; error := None;
               generatedAccessory := None |}))
  = Resolved
      {| originalImage :=
           Some {| file := {| type := "image/webp"; bytes := []; readable := true |};
                   base64 := "" |};
         editedImage := Some "data:image/png;base64,AAAA";
         isLoading := false;
         error := None;
         generatedAccessory := Some "PUF Chain" |}.
Proof.
  apply (result_is_labelled_png {| apiKey := "k" |}
      {| originalImage :=
           Some {| file := {| type := "image/webp"; bytes := []; readable := true |};
                   base64 := "" |};
         editedImage := None; isLoading := false; error := None;
         generatedAccessory := None |}
      {| file := {| type := "image/webp"; bytes := []; readable := true |};
         base64 := "" |}
      {| candidates := Some
           [ {| content := Some {| parts := Some
                [ {| inlineData := Some {| data := Some "AAAA";
                                           GenAI.mimeType := Some "image/jpeg" |};
                     text := None |} ] |} |} ] |}
      [] []
      {| inlineData := Some {| data := Some "AAAA";
                               GenAI.mimeType := Some "image/jpeg" |};
         text := None |}
      {| data := Some "AAAA"; GenAI.mimeType := Some "image/jpeg" |}).
  - reflexivity.
  - reflexivity.
  - constructor.
  - reflexivity.
Defined.

(** ** Base64 *)

Module Base64Facts.
Import Base64.

Local Open Scope N_scope.

Local Ltac euclid := intros; zify; Z.to_euclidean_division_equations; lia.

(** A property of the 6-bit values is one of 64 cases. *)
Lemma sextet_cases (P : N → Prop) :
  (∀ k : nat, (k < 64)%nat → P (N.of_nat k)) → ∀ n, n < 64 → P n.
Proof. intros H n Hn. rewrite <- (N2Nat.id n). apply H. lia. Qed.

Lemma decode_encode_sextet n :
  n < 64 → decode_char (encode_sextet n) = Some n.
Proof.
  revert n. apply sextet_cases. intros k Hk.
  do 64 (destruct k as [|k]; [reflexivity|]). lia.
Qed.

Lemma encode_sextet_not_pad n :
  n < 64 → Ascii.eqb (encode_sextet n) pad = false.
Proof.
  revert n. apply sextet_cases. intros k Hk.
  do 64 (destruct k as [|k]; [reflexivity|]). lia.
Qed.

Lemma encode_sextet_not_comma n :
  n < 64 → Ascii.eqb (encode_sextet n) ","%char = false.
Proof.
  revert n. apply sextet_cases. intros k Hk.
  do 64 (destruct k as [|k]; [reflexivity|]). lia.
Qed.

Lemma to_N_lt b : Byte.to_N b < 256.
Proof. pose proof (Byte.to_N_bounded b). lia. Qed.

Lemma sextet1_lt n1 : n1 < 256 → sextet1 n1 < 64.
Proof. unfold sextet1. euclid. Qed.

Lemma sextet2_lt n1 n2 : n2 < 256 → sextet2 n1 n2 < 64.
Proof. unfold sextet2. euclid. Qed.

Lemma sextet3_lt n2 n3 : n3 < 256 → sextet3 n2 n3 < 64.
Proof. unfold sextet3. euclid. Qed.

Lemma sextet4_lt n3 : sextet4 n3 < 64.
Proof. unfold sextet4. euclid. Qed.

Lemma octet1_sextets b1 n2 :
  n2 < 256 →
  octet1 (sextet1 (Byte.to_N b1)) (sextet2 (Byte.to_N b1) n2) = Some b1.
Proof.
  intros H2. pose proof (to_N_lt b1) as H1.
  unfold octet1, sextet1, sextet2.
  replace (_ + _) with (Byte.to_N b1) by (revert H1 H2; euclid).
  apply Byte.of_to_N.
Qed.

Lemma octet2_sextets n1 b2 n3 :
  n3 < 256 →
  octet2 (sextet2 n1 (Byte.to_N b2)) (sextet3 (Byte.to_N b2) n3) = Some b2.
Proof.
  intros H3. pose proof (to_N_lt b2) as H2.
  unfold octet2, sextet2, sextet3.
  replace (_ + _) with (Byte.to_N b2) by (revert H2 H3; euclid).
  apply Byte.of_to_N.
Qed.

Lemma octet3_sextets n2 b3 :
  octet3 (sextet3 n2 (Byte.to_N b3)) (sextet4 (Byte.to_N b3)) = Some b3.
Proof.
  pose proof (to_N_lt b3) as H3.
  unfold octet3, sextet3, sextet4.
  replace (_ + _) with (Byte.to_N b3) by (revert H3; euclid).
  apply Byte.of_to_N.
Qed.

Local Ltac bounds :=
  first [apply sextet1_lt | apply sextet2_lt | apply sextet3_lt | apply sextet4_lt];
  first [apply to_N_lt | lia].

(** Lists of bytes, three at a time. *)
Lemma list_ind3 {A} (P : list A → Prop) :
  P [] → (∀ a, P [a]) → (∀ a b, P [a; b]) →
  (∀ a b c l, P l → P (a :: b :: c :: l)) →
  ∀ l, P l.
Proof.
  intros H0 H1 H2 H3 l.
  assert (Hall : ∀ n l', (length l' ≤ n)%nat → P l').
  { induction n as [n IH] using lt_wf_ind. intros l' Hlen.
    destruct l' as [|a [|b [|c l']]]; auto.
    apply H3. apply (IH (length l')); simpl in Hlen; lia. }
  by apply (Hall (length l)).
Qed.

(** A full group of four characters decodes to three bytes. *)
Lemma decode_group c1 c2 c3 c4 rest :
  Ascii.eqb c4 pad = false →
  decode (String c1 (String c2 (String c3 (String c4 rest)))) =
  (s1 ← decode_char c1; s2 ← decode_char c2;
   s3 ← decode_char c3; s4 ← decode_char c4;
   b1 ← octet1 s1 s2; b2 ← octet2 s2 s3; b3 ← octet3 s3 s4;
   bs ← decode rest;
   Some (b1 :: b2 :: b3 :: bs)).
Proof. intros H. cbn [decode]. by rewrite H. Qed.

(** Decoding what was encoded gives the bytes back. *)
Lemma decode_encode bs : decode (encode bs) = Some bs.
Proof.
  induction bs as [|b1|b1 b2|b1 b2 b3 bs IH] using list_ind3.
  - reflexivity.
  - cbn [encode decode]. rewrite Ascii.eqb_refl.
    rewrite !decode_encode_sextet
      by bounds.
    cbn [mbind option_bind]. by rewrite octet1_sextets by lia.
  - cbn [encode decode]. rewrite Ascii.eqb_refl.
    rewrite encode_sextet_not_pad by bounds.
    rewrite !decode_encode_sextet
      by bounds.
    cbn [mbind option_bind].
    rewrite octet1_sextets by apply to_N_lt. cbn [mbind option_bind].
    by rewrite octet2_sextets by lia.
  - cbn [encode]. rewrite decode_group by (apply encode_sextet_not_pad; bounds).
    rewrite !decode_encode_sextet
      by bounds.
    cbn [mbind option_bind].
    rewrite octet1_sextets by apply to_N_lt. cbn [mbind option_bind].
    rewrite octet2_sextets by apply to_N_lt. cbn [mbind option_bind].
    rewrite octet3_sextets. cbn [mbind option_bind].
    by rewrite IH.
Qed.

(** The encoding has no comma in it. *)
Lemma has_comma_encode bs : has_comma (encode bs) = false.
Proof.
  induction bs as [|b1|b1 b2|b1 b2 b3 bs IH] using list_ind3;
    cbn [encode has_comma];
    rewrite ?encode_sextet_not_comma
      by bounds;
    rewrite ?IH; reflexivity.
Qed.

End Base64Facts.

(** ** The encoder *)

Lemma split_comma_no_comma s : has_comma s = false → split_comma s = [s].
Proof.
  induction s as [|c s IH]; simpl; [done|].
  destruct (Ascii.eqb c ","); simpl; [done|].
  intros H. by rewrite (IH H).
Qed.

(** The data URI of a file falls into its header and its payload. *)
Lemma split_comma_dataUri t b :
  has_comma t = false →
  has_comma b = false →
  split_comma ("data:" +:+ t +:+ ";base64," +:+ b) !! 1%nat = Some b.
Proof.
  intros Ht Hb.
  assert (H : ∀ t, has_comma t = false →
    ∃ header, split_comma (t +:+ ";base64," +:+ b) = [header; b]).
  { clear t Ht. induction t as [|c t IH]; simpl.
    - intros _. change ("" +:+ b) with b.
      rewrite (split_comma_no_comma b Hb). by eexists.
    - destruct (Ascii.eqb c ","); simpl; [done|].
      intros Ht. destruct (IH Ht) as [header ->]. by eexists. }
  destruct (H t Ht) as [header Hsplit].
  set (tail := t +:+ ";base64," +:+ b) in *.
  simpl. change ("" +:+ tail) with tail. by rewrite Hsplit.
Qed.

Lemma handleGenerate_sent
    (ai : GoogleGenAI) (remote : Remote) (st : AppState) (image : ImageFile) :
  originalImage st = Some image →
  sent (run remote (handleGenerate ai st))
  = [ (ai,
       {| model := "gemini-2.5-flash-image";
          contents :=
            {| parts := Some
                 [ {| inlineData := Some {| data := Some (base64 image);
                                            GenAI.mimeType := Some (type (file image)) |};
                      text := None |};
                   {| inlineData := None;
                      text := Some (filterPrompt +:+ " " +:+ accessoryPrompt) |} ] |};
          config := {| responseModalities := [IMAGE] |} |}) ].
Proof.
  intros Himage. unfold handleGenerate. rewrite Himage.
  rewrite sent_and_then, settled_try_catch, sent_try_catch.
  rewrite sent_and_then, settled_and_then, editImageWithPrompt_sent.
  by destruct (settled (run remote (editImageWithPrompt _ _ _ _))).
Qed.

(** C6.  For a file that can be read and whose declared media type is a
    media type (it has no comma in it), the upload holds the base64 text of
    the file's bytes, decoding that text gives the bytes back, and the
    request made for it carries that text under the file's declared media
    type. *)
Theorem encode_round_trip
    (f : File) (ai : GoogleGenAI) (remote : Remote) (st : AppState) :
  readable f = true →
  has_comma (type f) = false →
  handleFileChange [f]
    = Resolved (Uploaded {| file := f; base64 := Base64.encode (bytes f) |})
  ∧ Base64.decode (Base64.encode (bytes f)) = Some (bytes f)
  ∧ sent (run remote
       (handleGenerate ai
          (handleImageUpload
             {| file := f; base64 := Base64.encode (bytes f) |} st)))
    = [ (ai,
         {| model := "gemini-2.5-flash-image";
            contents :=
              {| parts := Some
                   [ {| inlineData := Some {| data := Some (Base64.encode (bytes f));
                                              GenAI.mimeType := Some (type f) |};
                        text := None |};
                     {| inlineData := None;
                        text := Some (filterPrompt +:+ " " +:+ accessoryPrompt) |} ] |};
            config := {| responseModalities := [IMAGE] |} |}) ].
Proof.
  intros Hread Htype. split; [|split].
  - unfold handleFileChange, fileToDataUri, readAsDataURL. cbn [lookup list_lookup].
    rewrite Hread.
    by rewrite (split_comma_dataUri (type f) (Base64.encode (bytes f)) Htype
                  (Base64Facts.has_comma_encode (bytes f))).
  - apply Base64Facts.decode_encode.
  - by rewrite (handleGenerate_sent ai remote _
                  {| file := f; base64 := Base64.encode (bytes f) |}).
Qed.

(** The first five bytes of a PNG file. *)
Lemma encode_round_trip_witness :
  handleFileChange
    [ {| type := "image/png"; bytes := [x89; x50; x4e; x47; x0d];
         readable := true |} ]
  = Resolved (Uploaded
      {| file := {| type := "image/png"; bytes := [x89; x50; x4e; x47; x0d];
                    readable := true |};
         base64 := "iVBORw0=" |})
  ∧ Base64.decode "iVBORw0=" = Some [x89; x50; x4e; x47; x0d].
Proof.
  destruct (encode_round_trip
      {| type := "image/png"; bytes := [x89; x50; x4e; x47; x0d];
         readable := true |}
      {| apiKey := "k" |} (answering (RejectedWith (OtherThrown "none")))
      {| originalImage := None; editedImage := None; isLoading := false;
         error := None; generatedAccessory := None |}
      eq_refl eq_refl) as (Hupload & Hdecode & _).
  split; [exact Hupload|exact Hdecode].
Defined.

(** * Further properties of the code *)

(** ** The console *)

Section ConsoleCombinators.

Context {A B : Type} (remote : Remote).

Lemma console_and_then (p : Proc A) (k : A → Proc B) :
  console (run remote (and_then p k)) =
  console (run remote p) ++
  match settled (run remote p) with
  | Resolved value => console (run remote (k value))
  | Rejected _ => []
  end.
Proof.
  induction p as [| |client req f IH|label e p IH]; simpl; auto.
  by rewrite IH.
Qed.

Lemma console_try_catch (p : Proc A) (handler : Thrown → Proc A) :
  console (run remote (try_catch p handler)) =
  console (run remote p) ++
  match settled (run remote p) with
  | Resolved _ => []
  | Rejected error => console (run remote (handler error))
  end.
Proof.
  induction p as [| |client req f IH|label e p IH]; simpl; auto.
  by rewrite IH.
Qed.

End ConsoleCombinators.

(** X1.  An invocation that resolves writes nothing to the console; one
    that rejects has written exactly one line, under the label of line 45,
    and the value on that line is the cause whose message follows the
    prefix in the rejection. *)
Theorem failure_is_logged_once
    (ai : GoogleGenAI) (base64ImageData mimeType prompt : string)
    (remote : Remote) :
  match settled (run remote
          (editImageWithPrompt ai base64ImageData mimeType prompt)) with
  | Resolved _ =>
      console (run remote
         (editImageWithPrompt ai base64ImageData mimeType prompt)) = []
  | Rejected error =>
      ∃ cause,
        console (run remote
           (editImageWithPrompt ai base64ImageData mimeType prompt))
        = [("Error editing image with Gemini:", cause)]
        ∧ error = ErrorInstance
                    ("Failed to generate image: " +:+ errorMessage cause)
  end.
Proof.
  unfold editImageWithPrompt. simpl.
  destruct (remote ai _) as [response|e]; simpl.
  - destruct (scan_parts (response_parts response)); simpl; [done|].
    by eexists.
  - by eexists.
Qed.

(** ** [handleGenerate] *)

(** What an invocation can settle to, for any remote service. *)
Lemma editImageWithPrompt_settles
    (ai : GoogleGenAI) (base64ImageData mimeType prompt : string)
    (remote : Remote) :
  (∃ payload,
     settled (run remote (editImageWithPrompt ai base64ImageData mimeType prompt))
     = Resolved payload)
  ∨ (∃ cause,
     settled (run remote (editImageWithPrompt ai base64ImageData mimeType prompt))
     = Rejected (ErrorInstance ("Failed to generate image: " +:+ cause))).
Proof.
  destruct (editImageWithPrompt_one_answer ai base64ImageData mimeType prompt remote)
    as (req & _ & ->).
  destruct (remote ai req) as [response|e].
  - rewrite editImageWithPrompt_fulfilled.
    destruct (scan_parts (response_parts response)); [left|right]; by eexists.
  - rewrite editImageWithPrompt_rejected. right. by eexists.
Qed.

(** X3.  With an uploaded image [handleGenerate] never rejects, whatever
    the remote service does.  The state it leaves has the same image, is no
    longer loading, and holds either a result behind the PNG header with the
    label "PUF Chain" and no error, or an error text that starts with the
    service's prefix and no result and no label. *)
Theorem generate_settles_in_result_or_error
    (ai : GoogleGenAI) (remote : Remote) (st : AppState) (image : ImageFile) :
  originalImage st = Some image →
  ∃ st',
    settled (run remote (handleGenerate ai st)) = Resolved st'
    ∧ originalImage st' = Some image
    ∧ isLoading st' = false
    ∧ ((∃ payload,
          editedImage st' = Some ("data:image/png;base64," +:+ template payload)
          ∧ error st' = None
          ∧ generatedAccessory st' = Some "PUF Chain")
       ∨ (∃ cause,
          error st' = Some ("Failed to generate image: " +:+ cause)
          ∧ editedImage st' = None
          ∧ generatedAccessory st' = None)).
Proof.
  intros Himage. rewrite (handleGenerate_settled ai remote st image Himage).
  destruct (editImageWithPrompt_settles ai (base64 image) (type (file image))
              (filterPrompt +:+ " " +:+ accessoryPrompt) remote)
    as [[payload ->]|[cause ->]]; eexists; (split; [reflexivity|]); simpl;
    repeat split.
  - left. by exists payload.
  - right. by exists cause.
Qed.

Lemma generate_settles_in_result_or_error_witness :
  ∃ st',
    settled (run (answering (RejectedWith (ErrorInstance "connection reset")))
               (handleGenerate {| apiKey := "k" |}
                  {| originalImage :=
                       Some {| file := {| type := "image/png"; bytes := [];
                                          readable := true |};
                               base64 := "" |};
                     editedImage := Some "old"; isLoading := false;
                     error := None; generatedAccessory := Some "PUF Chain" |}))
    = Resolved st'
    ∧ isLoading st' = false.
Proof.
  destruct (generate_settles_in_result_or_error {| apiKey := "k" |}
      (answering (RejectedWith (ErrorInstance "connection reset")))
      {| originalImage :=
           Some {| file := {| type := "image/png"; bytes := []; readable := true |};
                   base64 := "" |};
         editedImage := Some "old"; isLoading := false;
         error := None; generatedAccessory := Some "PUF Chain" |}
      {| file := {| type := "image/png"; bytes := []; readable := true |};
         base64 := "" |}
      eq_refl) as (st' & Hst' & _ & Hload & _).
  exists st'. split; assumption.
Defined.

(** X4.  When the call itself rejects, the text that [handleGenerate] puts
    in the error state is the service's prefix followed by the message of
    the thrown [Error], or by the service's generic text for any other
    thrown value: the message made at line 47 passes through the handler of
    line 108 unchanged, and the result and its label are cleared. *)
Theorem transport_error_is_shown
    (ai : GoogleGenAI) (st : AppState) (image : ImageFile) (e : Thrown) :
  originalImage st = Some image →
  settled (run (answering (RejectedWith e)) (handleGenerate ai st))
  = Resolved
      {| originalImage := Some image;
         editedImage := None;
         isLoading := false;
         error := Some ("Failed to generate image: " +:+
                        match e with
                        | ErrorInstance message => message
                        | OtherThrown _ => "An unknown error occurred."
                        end);
         generatedAccessory := None |}.
Proof.
  intros Himage.
  rewrite (handleGenerate_settled ai _ st image Himage).
  rewrite editImageWithPrompt_rejected. by destruct e.
Qed.

Lemma transport_error_is_shown_witness :
  settled (run (answering (RejectedWith (ErrorInstance "connection reset")))
             (handleGenerate {| apiKey := "k" |}
                {| originalImage :=
                     Some {| file := {| type := "image/png"; bytes := [];
                                        readable := true |};
                             base64 := "" |};
                   editedImage := Some "old"; isLoading := false;
                   error := None; generatedAccessory := Some "PUF Chain" |}))
  = Resolved
      {| originalImage :=
           Some {| file := {| type := "image/png"; bytes := []; readable := true |};
                   base64 := "" |};
         editedImage := None;
         isLoading := false;
         error := Some "Failed to generate image: connection reset";
         generatedAccessory := None |}.
Proof.
  apply (transport_error_is_shown {| apiKey := "k" |}
      {| originalImage :=
           Some {| file := {| type := "image/png"; bytes := []; readable := true |};
                   base64 := "" |};
         editedImage := Some "old"; isLoading := false;
         error := None; generatedAccessory := Some "PUF Chain" |}
      {| file := {| type := "image/png"; bytes := []; readable := true |};
         base64 := "" |}
      (ErrorInstance "connection reset")).
  reflexivity.
Defined.

(** X5.  With an uploaded image, what [handleGenerate] does depends on the
    state through the image alone: an earlier result, error, label or
    loading flag has no influence on the call that is sent, on the console
    or on the state that is left.  So pressing the button again, with the
    service answering as before, leaves the state it found. *)
Theorem generate_forgets_earlier_outcome
    (ai : GoogleGenAI) (remote : Remote) (st1 st2 st' : AppState)
    (image : ImageFile) :
  originalImage st1 = Some image →
  originalImage st2 = Some image →
  run remote (handleGenerate ai st1) = run remote (handleGenerate ai st2)
  ∧ (settled (run remote (handleGenerate ai st1)) = Resolved st' →
     settled (run remote (handleGenerate ai st')) = Resolved st').
Proof.
  intros H1 H2. split.
  - unfold handleGenerate. by rewrite H1, H2.
  - rewrite (handleGenerate_settled ai remote st1 image H1). intros Hst'.
    assert (Himage' : originalImage st' = Some image).
    { destruct (settled (run remote (editImageWithPrompt _ _ _ _)));
        by injection Hst' as <-. }
    rewrite (handleGenerate_settled ai remote st' image Himage'). exact Hst'.
Qed.

Lemma generate_forgets_earlier_outcome_witness :
  run (answering (RejectedWith (ErrorInstance "connection reset")))
      (handleGenerate {| apiKey := "k" |}
         {| originalImage :=
              Some {| file := {| type := "image/png"; bytes := [];
                                 readable := true |};
                      base64 := "" |};
            editedImage := Some "old"; isLoading := true;
            error := Some "old error"; generatedAccessory := Some "old label" |})
  = run (answering (RejectedWith (ErrorInstance "connection reset")))
      (handleGenerate {| apiKey := "k" |}
         {| originalImage :=
              Some {| file := {| type := "image/png"; bytes := [];
                                 readable := true |};
                      base64 := "" |};
            editedImage := None; isLoading := false;
            error := None; generatedAccessory := None |}).
Proof.
  apply (generate_forgets_earlier_outcome {| apiKey := "k" |}
      (answering (RejectedWith (ErrorInstance "connection reset")))
      {| originalImage :=
           Some {| file := {| type := "image/png"; bytes := []; readable := true |};
                   base64 := "" |};
         editedImage := Some "old"; isLoading := true;
         error := Some "old error"; generatedAccessory := Some "old label" |}
      {| originalImage :=
           Some {| file := {| type := "image/png"; bytes := []; readable := true |};
                   base64 := "" |};
         editedImage := None; isLoading := false;
         error := None; generatedAccessory := None |}
      initial_state
      {| file := {| type := "image/png"; bytes := []; readable := true |};
         base64 := "" |}).
  - reflexivity.
  - reflexivity.
Defined.

(** ** [handleFileChange] *)

Lemma string_app_assoc (a b c : string) : (a +:+ b) +:+ c = a +:+ b +:+ c.
Proof.
  induction a as [|x a IH]; [reflexivity|].
  change (String x ((a +:+ b) +:+ c) = String x (a +:+ b +:+ c)).
  by rewrite IH.
Qed.

Lemma has_comma_app (a b : string) :
  has_comma (a +:+ b) = has_comma a || has_comma b.
Proof.
  induction a as [|x a IH]; [reflexivity|].
  change (Ascii.eqb x "," || has_comma (a +:+ b)
          = Ascii.eqb x "," || has_comma a || has_comma b).
  rewrite IH. by destruct (Ascii.eqb x ",").
Qed.

Lemma split_comma_nonempty (s : string) : split_comma s ≠ [].
Proof.
  destruct s as [|c s]; simpl; [done|].
  destruct (Ascii.eqb c ","); [done|]. by destruct (split_comma s).
Qed.

(** Splitting falls apart at a comma. *)
Lemma split_comma_app (a b : string) :
  split_comma (a +:+ String ","%char b) = split_comma a ++ split_comma b.
Proof.
  induction a as [|c a IH].
  - reflexivity.
  - change (split_comma (String c (a +:+ String ","%char b))
            = split_comma (String c a) ++ split_comma b).
    cbn [split_comma]. rewrite IH.
    destruct (Ascii.eqb c ","); [reflexivity|].
    pose proof (split_comma_nonempty a) as Hne.
    by destruct (split_comma a).
Qed.

(** A string with a comma in it has two pieces at least. *)
Lemma split_comma_two_pieces (s : string) :
  has_comma s = true → ∃ p q rest, split_comma s = p :: q :: rest.
Proof.
  induction s as [|c s IH]; simpl; [done|].
  destruct (Ascii.eqb c ","); simpl.
  - intros _. pose proof (split_comma_nonempty s).
    destruct (split_comma s) as [|q rest]; [done|]. by eexists _, _, _.
  - intros H. destruct (IH H) as (p & q & rest & ->). by eexists _, _, _.
Qed.

(** The pieces of a data URI: those of its header, then those of what
    follows the comma of the header. *)
Lemma split_comma_dataUri_pieces (t b : string) :
  split_comma ("data:" +:+ t +:+ ";base64," +:+ b)
  = split_comma ("data:" +:+ t +:+ ";base64") ++ split_comma b.
Proof.
  transitivity (split_comma (("data:" +:+ t +:+ ";base64") +:+ String ","%char b)).
  - f_equal. by rewrite !string_app_assoc.
  - apply split_comma_app.
Qed.

(** X7.  [handleFileChange] looks at the first chosen file only.  With no
    file nothing is uploaded; when the file cannot be read the promise
    rejects with the reader's event, which is not an [Error], and nothing
    is uploaded; when it can be read, that file is uploaded with a payload
    that is a string, never [undefined]. *)
Theorem upload_needs_a_readable_first_file (files : list File) :
  match files with
  | [] => handleFileChange files = Resolved NothingChosen
  | f :: _ =>
      if readable f
      then ∃ payload,
             handleFileChange files
             = Resolved (Uploaded {| file := f; base64 := payload |})
      else handleFileChange files = Rejected (OtherThrown "ProgressEvent")
  end.
Proof.
  destruct files as [|f others]; [reflexivity|].
  unfold handleFileChange, fileToDataUri, readAsDataURL. cbn [lookup list_lookup].
  destruct (readable f); [|reflexivity].
  rewrite split_comma_dataUri_pieces.
  pose proof (split_comma_nonempty ("data:" +:+ type f +:+ ";base64")) as Hh.
  pose proof (split_comma_nonempty (Base64.encode (bytes f))) as Hb.
  destruct (split_comma ("data:" +:+ type f +:+ ";base64")) as [|h [|q hs]];
    [done| |by eexists].
  destruct (split_comma (Base64.encode (bytes f))) as [|p ps]; [done|].
  by eexists.
Qed.

(** X9.  When the declared type of a readable file has a comma in it, the
    payload that is uploaded is the text between the first and the second
    comma of the header of the data URI: it is the same for two files of
    that type whatever their bytes. *)
Theorem comma_in_type_loses_the_bytes (f f' : File) (image image' : ImageFile) :
  has_comma (type f) = true →
  type f' = type f →
  handleFileChange [f] = Resolved (Uploaded image) →
  handleFileChange [f'] = Resolved (Uploaded image') →
  split_comma ("data:" +:+ type f +:+ ";base64") !! 1%nat = Some (base64 image)
  ∧ base64 image' = base64 image.
Proof.
  intros Hcomma Htype.
  assert (Hpiece : ∀ g img,
    type g = type f →
    handleFileChange [g] = Resolved (Uploaded img) →
    split_comma ("data:" +:+ type f +:+ ";base64") !! 1%nat = Some (base64 img)).
  { intros g img Hg.
    unfold handleFileChange, fileToDataUri, readAsDataURL.
    cbn [lookup list_lookup]. destruct (readable g); [|done].
    rewrite split_comma_dataUri_pieces, Hg.
    assert (Hh : has_comma ("data:" +:+ type f +:+ ";base64") = true).
    { rewrite !has_comma_app, Hcomma. reflexivity. }
    destruct (split_comma_two_pieces _ Hh) as (p & q & rest & ->).
    simpl. by intros [= <-]. }
  intros H H'.
  pose proof (Hpiece f image eq_refl H) as Hp.
  pose proof (Hpiece f' image' Htype H') as Hp'.
  split; [exact Hp|]. rewrite Hp in Hp'. by injection Hp'.
Qed.

Lemma comma_in_type_loses_the_bytes_witness :
  split_comma ("data:" +:+ "image/png,x" +:+ ";base64") !! 1%nat = Some "x;base64"
  ∧ "x;base64" = "x;base64".
Proof.
  apply (comma_in_type_loses_the_bytes
      {| type := "image/png,x"; bytes := [x89; x50]; readable := true |}
      {| type := "image/png,x"; bytes := [x0d]; readable := true |}
      {| file := {| type := "image/png,x"; bytes := [x89; x50]; readable := true |};
         base64 := "x;base64" |}
      {| file := {| type := "image/png,x"; bytes := [x0d]; readable := true |};
         base64 := "x;base64" |}).
  - reflexivity.
  - reflexivity.
  - vm_compute. reflexivity.
  - vm_compute. reflexivity.
Defined.

(** X8.  For a file whose declared type is not empty and has no comma, the
    source of the preview of line 127, put together again from the type and
    the payload of the upload, is the data URI that the reader gave.  (A
    file without a declared type is left out: a browser puts a type of its
    own into the data URI then.) *)
Theorem preview_is_the_data_uri (f : File) (image : ImageFile) (st : AppState) :
  type f ≠ "" →
  has_comma (type f) = false →
  handleFileChange [f] = Resolved (Uploaded image) →
  original_src (App_render (handleImageUpload image st)) = readAsDataURL f.
Proof.
  intros _ Htype.
  unfold handleFileChange, fileToDataUri, readAsDataURL. cbn [lookup list_lookup].
  destruct (readable f); [|done].
  rewrite (split_comma_dataUri (type f) (Base64.encode (bytes f)) Htype
             (Base64Facts.has_comma_encode (bytes f))).
  by intros [= <-].
Qed.

Lemma preview_is_the_data_uri_witness :
  original_src
    (App_render
       (handleImageUpload
          {| file := {| type := "image/png"; bytes := [x89; x50; x4e; x47; x0d];
                        readable := true |};
             base64 := "iVBORw0=" |}
          initial_state))
  = Some "data:image/png;base64,iVBORw0=".
Proof.
  apply (preview_is_the_data_uri
      {| type := "image/png"; bytes := [x89; x50; x4e; x47; x0d];
         readable := true |}
      {| file := {| type := "image/png"; bytes := [x89; x50; x4e; x47; x0d];
                    readable := true |};
         base64 := "iVBORw0=" |}
      initial_state).
  - discriminate.
  - reflexivity.
  - vm_compute. reflexivity.
Defined.

(** ** The screen *)

(** The state that [handleGenerate] leaves for an uploaded image. *)
Lemma handleGenerate_leaves
    (ai : GoogleGenAI) (remote : Remote) (st st' : AppState) (image : ImageFile) :
  originalImage st = Some image →
  settled (run remote (handleGenerate ai st)) = Resolved st' →
  (∃ payload,
     st' = {| originalImage := Some image;
              editedImage := Some ("data:image/png;base64," +:+ template payload);
              isLoading := false;
              error := None;
              generatedAccessory := Some "PUF Chain" |})
  ∨ (∃ cause,
     st' = {| originalImage := Some image;
              editedImage := None;
              isLoading := false;
              error := Some ("Failed to generate image: " +:+ cause);
              generatedAccessory := None |}).
Proof.
  intros Himage. rewrite (handleGenerate_settled ai remote st image Himage).
  destruct (editImageWithPrompt_settles ai (base64 image) (type (file image))
              (filterPrompt +:+ " " +:+ accessoryPrompt) remote)
    as [[payload ->]|[cause ->]]; intros [= <-]; [left|right]; by eexists.
Qed.

(** X13.  Once [handleGenerate] has settled for an uploaded image, the
    screen has no spinner and no placeholder, the button is enabled again
    under its caption "Generate PFP", and the result pane shows exactly one
    of two things: the edited image with the label "PUF Chain", or an error
    text. *)
Theorem screen_after_generate
    (ai : GoogleGenAI) (remote : Remote) (st st' : AppState) (image : ImageFile) :
  originalImage st = Some image →
  settled (run remote (handleGenerate ai st)) = Resolved st' →
  spinner (App_render st') = false
  ∧ placeholder (App_render st') = false
  ∧ generate_button (App_render st')
    = Some {| disabled := false; caption := "Generate PFP" |}
  ∧ ((∃ src, edited (App_render st') = Some (src, Some "PUF Chain")
             ∧ error_text (App_render st') = None)
     ∨ (∃ message, error_text (App_render st') = Some message
                   ∧ edited (App_render st') = None)).
Proof.
  intros Himage Hst'.
  destruct (handleGenerate_leaves ai remote st st' image Himage Hst')
    as [[payload ->]|[cause ->]]; repeat split.
  - left. by eexists.
  - right. by eexists.
Qed.

Lemma screen_after_generate_witness :
  spinner (App_render
    {| originalImage :=
         Some {| file := {| type := "image/png"; bytes := []; readable := true |};
                 base64 := "" |};
       editedImage := None; isLoading := false;
       error := Some "Failed to generate image: connection reset";
       generatedAccessory := None |}) = false.
Proof.
  apply (screen_after_generate {| apiKey := "k" |}
      (answering (RejectedWith (ErrorInstance "connection reset")))
      {| originalImage :=
           Some {| file := {| type := "image/png"; bytes := []; readable := true |};
                   base64 := "" |};
         editedImage := None; isLoading := false; error := None;
         generatedAccessory := None |}
      _
      {| file := {| type := "image/png"; bytes := []; readable := true |};
         base64 := "" |}).
  - reflexivity.
  - reflexivity.
Defined.

(** X6.  When the first part with inline data has a blob without [data],
    no error is shown: the result pane shows an image whose source is the
    PNG header followed by the word of the missing value, with the label
    "PUF Chain". *)
Theorem absent_payload_is_shown_as_image
    (ai : GoogleGenAI) (st : AppState) (image : ImageFile)
    (response : GenerateContentResponse)
    (pre post : list Part) (part : Part) (blob : Blob) :
  originalImage st = Some image →
  response_parts response = pre ++ part :: post →
  Forall plain pre →
  inlineData part = Some blob →
  data blob = None →
  ∃ st',
    settled (run (answering (Fulfilled response)) (handleGenerate ai st))
    = Resolved st'
    ∧ edited (App_render st')
      = Some ("data:image/png;base64,undefined", Some "PUF Chain")
    ∧ error_text (App_render st') = None.
Proof.
  intros Himage Hparts Hpre Hpart Hdata.
  rewrite (handleGenerate_settled ai _ st image Himage).
  rewrite editImageWithPrompt_fulfilled, Hparts.
  rewrite (scan_parts_first pre part blob post Hpre Hpart), Hdata.
  by eexists.
Qed.

Lemma absent_payload_is_shown_as_image_witness :
  ∃ st',
    settled
      (run (answering (Fulfilled {| candidates := Some
              [ {| content := Some {| parts := Some
                   [ {| inlineData := Some {| data := None;
                                              GenAI.mimeType := Some "image/png" |};
                        text := None |} ] |} |} ] |}))
           (handleGenerate {| apiKey := "k" |}
              {| originalImage :=
                   Some {| file := {| type := "image/png"; bytes := [];
                                      readable := true |};
                           base64 := "" |};
                 editedImage := None; isLoading := false; error := None;
                 generatedAccessory := None |}))
    = Resolved st'
    ∧ edited (App_render st')
      = Some ("data:image/png;base64,undefined", Some "PUF Chain")
    ∧ error_text (App_render st') = None.
Proof.
  apply (absent_payload_is_shown_as_image {| apiKey := "k" |}
      {| originalImage :=
           Some {| file := {| type := "image/png"; bytes := []; readable := true |};
                   base64 := "" |};
         editedImage := None; isLoading := false; error := None;
         generatedAccessory := None |}
      {| file := {| type := "image/png"; bytes := []; readable := true |};
         base64 := "" |}
      {| candidates := Some
           [ {| content := Some {| parts := Some
                [ {| inlineData := Some {| data := None;
                                           GenAI.mimeType := Some "image/png" |};
                     text := None |} ] |} |} ] |}
      [] []
      {| inlineData := Some {| data := None; GenAI.mimeType := Some "image/png" |};
         text := None |}
      {| data := None; GenAI.mimeType := Some "image/png" |}).
  - reflexivity.
  - reflexivity.
  - constructor.
  - reflexivity.
  - reflexivity.
Defined.

(** X12.  While the call is awaited the screen shows the spinner and the
    preview, neither error nor result nor placeholder, no upload widget, and
    the button disabled under the caption "Generating...": the user can
    start nothing. *)
Theorem nothing_to_start_while_requesting
    (ai : GoogleGenAI) (st : AppState) (image : ImageFile) :
  originalImage st = Some image →
  App_render (requesting st)
  = {| upload_widget := false;
       original_src :=
         Some ("data:" +:+ type (file image) +:+ ";base64," +:+ base64 image);
       generate_button := Some {| disabled := true; caption := "Generating..." |};
       spinner := true;
       error_text := None;
       edited := None;
       placeholder := false |}
  ∧ ∀ st', ¬ ui_step ai (requesting st) st'.
Proof.
  intros Himage. split.
  - unfold App_render, requesting; simpl. by rewrite Himage.
  - intros st' Hstep. inversion Hstep as [? ? ? Hw|? button ? ? Hb Hd]; subst.
    + unfold App_render, requesting in Hw; simpl in Hw. by rewrite Himage in Hw.
    + unfold App_render, requesting in Hb; simpl in Hb. rewrite Himage in Hb.
      injection Hb as <-. done.
Qed.

Lemma nothing_to_start_while_requesting_witness :
  App_render
    (requesting
       {| originalImage :=
            Some {| file := {| type := "image/png"; bytes := [];
                               readable := true |};
                    base64 := "" |};
          editedImage := Some "old"; isLoading := false; error := None;
          generatedAccessory := Some "PUF Chain" |})
  = {| upload_widget := false;
       original_src := Some "data:image/png;base64,";
       generate_button := Some {| disabled := true; caption := "Generating..." |};
       spinner := true;
       error_text := None;
       edited := None;
       placeholder := false |}.
Proof.
  apply (nothing_to_start_while_requesting {| apiKey := "k" |}
      {| originalImage :=
           Some {| file := {| type := "image/png"; bytes := []; readable := true |};
                   base64 := "" |};
         editedImage := Some "old"; isLoading := false; error := None;
         generatedAccessory := Some "PUF Chain" |}
      {| file := {| type := "image/png"; bytes := []; readable := true |};
         base64 := "" |}).
  reflexivity.
Defined.

(** ** The states the user can reach *)

(** What holds of every state at rest that the user can bring about. *)
Lemma ui_invariant (ai : GoogleGenAI) (st : AppState) :
  rtc (ui_step ai) initial_state st →
  isLoading st = false
  ∧ ((editedImage st = None ∧ error st = None ∧ generatedAccessory st = None)
     ∨ (∃ payload,
          is_Some (originalImage st)
          ∧ editedImage st = Some ("data:image/png;base64," +:+ template payload)
          ∧ error st = None
          ∧ generatedAccessory st = Some "PUF Chain")
     ∨ (∃ cause,
          is_Some (originalImage st)
          ∧ error st = Some ("Failed to generate image: " +:+ cause)
          ∧ editedImage st = None
          ∧ generatedAccessory st = None)).
Proof.
  intros Hreach. pattern st.
  eapply (rtc_ind_r _ initial_state); [| |exact Hreach]; clear st Hreach.
  - split; [reflexivity|]. by left.
  - intros st1 st2 _ Hstep IH. destruct IH as [Hload _].
    destruct Hstep as [st1 files image _ _|st1 button remote st2 Hb _ Hst2].
    + split; [exact Hload|]. by left.
    + unfold App_render in Hb; simpl in Hb.
      destruct (originalImage st1) as [image|] eqn:Himage; [|done].
      destruct (handleGenerate_leaves ai remote st1 st2 image Himage Hst2)
        as [[payload ->]|[cause ->]]; (split; [reflexivity|]).
      * right; left. exists payload. by repeat split.
      * right; right. exists cause. by repeat split.
Qed.

(** X10.  In every state that the user can reach from the initial one by
    uploading and by pressing the button, the loading flag is off, an error
    and a result are never there together, the label is there exactly with
    a result and is "PUF Chain", neither an error nor a result is there
    without an uploaded image, and the text "Please upload an image first."
    is never the error. *)
Theorem states_at_rest (ai : GoogleGenAI) (st : AppState) :
  rtc (ui_step ai) initial_state st →
  isLoading st = false
  ∧ ¬ (is_Some (error st) ∧ is_Some (editedImage st))
  ∧ (is_Some (editedImage st) ↔ generatedAccessory st = Some "PUF Chain")
  ∧ (is_Some (editedImage st) ∨ is_Some (error st) → is_Some (originalImage st))
  ∧ error st ≠ Some "Please upload an image first.".
Proof.
  intros Hreach.
  destruct (ui_invariant ai st Hreach)
    as [Hload [(He & Herr & Hacc)|[(payload & Him & He & Herr & Hacc)
                                  |(cause & Him & Herr & He & Hacc)]]];
    rewrite He, Herr, Hacc; (split; [exact Hload|]); repeat split;
    try done; try (by intros [[? [=]] _]); try (by intros [_ [? [=]]]);
    try (by intros [? [=]]); try (by intros [[? [=]]|[? [=]]]).
Qed.

(** An upload, then a call that fails. *)
Lemma states_at_rest_witness :
  isLoading
    {| originalImage :=
         Some {| file := {| type := "image/png"; bytes := [x89; x50; x4e; x47; x0d];
                            readable := true |};
                 base64 := "iVBORw0=" |};
       editedImage := None; isLoading := false;
       error := Some "Failed to generate image: connection reset";
       generatedAccessory := None |} = false.
Proof.
  apply (states_at_rest {| apiKey := "k" |}).
  eapply rtc_l.
  { apply (ui_upload {| apiKey := "k" |} initial_state
             [ {| type := "image/png"; bytes := [x89; x50; x4e; x47; x0d];
                  readable := true |} ]
             {| file := {| type := "image/png"; bytes := [x89; x50; x4e; x47; x0d];
                           readable := true |};
                base64 := "iVBORw0=" |}).
    - reflexivity.
    - vm_compute. reflexivity. }
  eapply rtc_l; [|apply rtc_refl].
  apply (ui_generate {| apiKey := "k" |} _
           {| disabled := false; caption := "Generate PFP" |}
           (answering (RejectedWith (ErrorInstance "connection reset")))).
  - reflexivity.
  - reflexivity.
  - reflexivity.
Defined.

(** X14.  With an uploaded image, pressing the button sends exactly one
    call, whether it succeeds or fails (nothing is tried again): to the
    service's model, for the image modality, with the payload and the
    declared type of the uploaded file and, as the instruction, the filter
    prompt, a space and the accessory prompt. *)
Theorem generate_sends_one_call
    (ai : GoogleGenAI) (remote : Remote) (st : AppState) (image : ImageFile) :
  originalImage st = Some image →
  sent (run remote (handleGenerate ai st))
  = [ (ai,
       {| model := "gemini-2.5-flash-image";
          contents :=
            {| parts := Some
                 [ {| inlineData := Some {| data := Some (base64 image);
                                            GenAI.mimeType := Some (type (file image)) |};
                      text := None |};
                   {| inlineData := None;
                      text := Some
                        "Apply a cool, black and white security camera filter with a slight fish-eye lens effect to the image. Overlay a stylish chain with the letters 'PUF' on it. The chain should be appropriately placed on the main subject of the image, whether it's a person, animal, or object." |} ] |};
          config := {| responseModalities := [IMAGE] |} |}) ].
Proof. intros Himage. by rewrite (handleGenerate_sent ai remote st image Himage). Qed.

Lemma generate_sends_one_call_witness :
  length
    (sent (run (answering (RejectedWith (ErrorInstance "connection reset")))
             (handleGenerate {| apiKey := "k" |}
                {| originalImage :=
                     Some {| file := {| type := "image/png"; bytes := [];
                                        readable := true |};
                             base64 := "QUJD" |};
                   editedImage := None; isLoading := false; error := None;
                   generatedAccessory := None |})))
  = 1%nat.
Proof.
  rewrite (generate_sends_one_call {| apiKey := "k" |}
      (answering (RejectedWith (ErrorInstance "connection reset")))
      {| originalImage :=
           Some {| file := {| type := "image/png"; bytes := []; readable := true |};
                   base64 := "QUJD" |};
         editedImage := None; isLoading := false; error := None;
         generatedAccessory := None |}
      {| file := {| type := "image/png"; bytes := []; readable := true |};
         base64 := "QUJD" |} eq_refl).
  reflexivity.
Defined.
